(** * MIMAGA: mutual-information pre-filter and adaptive genetic search

    Shallow embedding of [ITMO_FS/filters/multivariate/mimaga.py].

    Conventions of the embedding.
    - Python [int] is [Z]; positions and lengths are [nat].
    - Python and numpy floats are idealised as real numbers [R]; [np.log] is
      [ln].  No statement below depends on rounding.
    - A Python exception is a value of [exn]; a function that can raise
      returns a [result].
    - A Python [dict] is an insertion-ordered association list.
    - A numpy 2-D array is the list of its rows.
    - Chromosomes are Python lists shared by reference: they live in a heap
      and are passed around as addresses. *)

From Stdlib Require Import ZArith List Sorted String Ascii Reals Lra Lia.
From stdpp Require Import base option list strings.

Local Open Scope Z_scope.
Local Open Scope nat_scope.

(** * The program *)

(** ** Exceptions and results *)

Inductive exn : Type :=
| IndexError
| KeyError
| ZeroDivisionError
| ValueError
| AttributeError (attr : string).

Inductive result (A : Type) : Type :=
| Ok (a : A)
| Raise (e : exn).
Arguments Ok {A} a.
Arguments Raise {A} e.

#[global] Instance result_ret : MRet result := fun A a => Ok a.
#[global] Instance result_bind : MBind result := fun A B f m =>
  match m with
  | Ok a => f a
  | Raise e => Raise e
  end.

(** [l[i]] for a non-negative position. *)
Definition getitem {A} (l : list A) (i : nat) : result A :=
  match l !! i with
  | Some a => Ok a
  | None => Raise IndexError
  end.

(** [for a in l: acc = f(acc, a)] where the body may raise or have effects.
    ([list(map(f, l))] with such an [f] is stdpp's [mapM].) *)
Fixpoint foldM {M : Type -> Type} `{!MRet M, !MBind M} {A B}
    (f : B -> A -> M B) (l : list A) (acc : B) : M B :=
  match l with
  | [] => mret acc
  | a :: l' => acc' ← f acc a; foldM f l' acc'
  end.

(** ** Dictionaries *)

Section Dict.
Context {K V : Type} `{EqDecision K}.

Definition dict := list (K * V).

Fixpoint dict_lookup (d : dict) (k : K) : option V :=
  match d with
  | [] => None
  | (k', v) :: d' => if decide (k' = k) then Some v else dict_lookup d' k
  end.

(** [d[k]] *)
Definition dict_get (d : dict) (k : K) : result V :=
  match dict_lookup d k with
  | Some v => Ok v
  | None => Raise KeyError
  end.

(** [d[k] = v]: an existing key keeps its position. *)
Fixpoint dict_set (d : dict) (k : K) (v : V) : dict :=
  match d with
  | [] => [(k, v)]
  | (k', v') :: d' =>
      if decide (k' = k) then (k', v) :: d' else (k', v') :: dict_set d' k v
  end.

Definition dict_keys (d : dict) : list K := map fst d.
Definition dict_values (d : dict) : list V := map snd d.

(** [{k: f(k) for k in l}] *)
Definition dict_comp (f : K -> V) (l : list K) : dict :=
  fold_left (fun d k => dict_set d k (f k)) l [].

(** [dict(pairs)] *)
Definition dict_of_pairs (l : list (K * V)) : dict :=
  fold_left (fun d kv => dict_set d kv.1 kv.2) l [].
End Dict.
Arguments dict : clear implicits.

(** ** Numbers *)

Definition Rltb (a b : R) : bool := if Rlt_dec a b then true else false.
Definition Rleb (a b : R) : bool := if Rle_dec a b then true else false.
Definition Reqb (a b : R) : bool := if Req_dec_T a b then true else false.

(** [a / b] on two Python ints: true division. *)
Definition int_truediv (a b : Z) : result R :=
  if decide (b = 0%Z) then Raise ZeroDivisionError else Ok (IZR a / IZR b)%R.

(** Built-in [sum]: starts from [0] and adds from the left. *)
Definition py_sum (l : list R) : R := fold_left Rplus l 0%R.

(** ** Entropy *)

(** [-sum(nonzero_probs * np.log(nonzero_probs))] after
    [nonzero_probs = probs[np.where(probs > 0)]]. *)
Definition neg_plogp (probs : list R) : R :=
  let nonzero_probs := List.filter (fun p => Rltb 0 p) probs in
  (- py_sum (map (fun p => p * ln p)%R nonzero_probs))%R.

(** [for xi in x: counter[xi] += 1] *)
Definition count_up (counter : dict Z Z) (xi : Z) : result (dict Z Z) :=
  c ← dict_get counter xi; Ok (dict_set counter xi (c + 1)%Z).

Definition marginal_entropy (x : list Z) : result R :=
  let x_counter := dict_comp (fun _ => 0%Z) x in
  x_counter ← foldM count_up x x_counter;
  probs ← mapM (fun xi => c ← dict_get x_counter xi;
                          int_truediv c (Z.of_nat (length x))) x;
  Ok (neg_plogp probs).

(** [for i in range(len(x)): y_counter[y[i]] += 1; x_by_y_counter[y[i]][x[i]] += 1] *)
Definition count_pair (x y : list Z)
    (st : dict Z Z * dict Z (dict Z Z)) (i : nat)
    : result (dict Z Z * dict Z (dict Z Z)) :=
  let '(y_counter, x_by_y_counter) := st in
  xi ← getitem x i;
  yi ← getitem y i;
  y_counter ← count_up y_counter yi;
  inner ← dict_get x_by_y_counter yi;
  inner ← count_up inner xi;
  Ok (y_counter, dict_set x_by_y_counter yi inner).

Definition conditional_entropy (x y : list Z) : result R :=
  let y_counter := dict_comp (fun _ => 0%Z) y in
  let x_by_y_counter := dict_comp (fun _ => dict_comp (fun _ => 0%Z) x) y in
  '(y_counter, x_by_y_counter) ←
    foldM (count_pair x y) (seq 0 (length x)) (y_counter, x_by_y_counter);
  foldM (fun entropy yi =>
           inner ← dict_get x_by_y_counter yi;
           let x_yi := dict_values inner in
           x_by_yi ← mapM (fun xi => n ← dict_get y_counter yi;
                                     int_truediv xi n) x_yi;
           let yi_entropy := neg_plogp x_by_yi in
           n ← dict_get y_counter yi;
           w ← int_truediv n (Z.of_nat (length y));
           Ok (entropy + w * yi_entropy)%R)
        (dict_keys y_counter) 0%R.

Definition mutual_information (x y : list Z) : result R :=
  hx ← marginal_entropy x;
  hxy ← conditional_entropy x y;
  Ok (hx - hxy)%R.

(** [m[i][j] = v] on a 2-D array. *)
Definition setitem2 {A} (m : list (list A)) (i j : nat) (v : A)
    : result (list (list A)) :=
  row ← getitem m i;
  if decide (j < length row) then Ok (<[i := <[j := v]> row]> m)
  else Raise IndexError.

Definition genes_mutual_information (genes : list (list Z)) : result (list R) :=
  let g_num := length genes in
  let mi_matrix := replicate g_num (replicate g_num 0%R) in
  mi_matrix ←
    foldM (fun m i =>
             foldM (fun m j =>
                      if decide (i ≠ j) then
                        gi ← getitem genes i;
                        gj ← getitem genes j;
                        v ← mutual_information gi gj;
                        setitem2 m i j v
                      else Ok m)
                   (seq 0 g_num) m)
          (seq 0 g_num) mi_matrix;
  mapM (fun i => row ← getitem mi_matrix i; Ok (py_sum row)) (seq 0 g_num).

(** ** Sorting and slicing *)

(** Stable insertion sort; [before a b] says that [a] must come strictly
    before [b].  Elements that are not ordered by [before] keep their
    original order, as with Python's [sorted] and [list.sort]. *)
Fixpoint insert_by {A} (before : A -> A -> bool) (a : A) (l : list A) : list A :=
  match l with
  | [] => [a]
  | b :: l' => if before b a then b :: insert_by before a l' else a :: b :: l'
  end.

Definition sort_by {A} (before : A -> A -> bool) (l : list A) : list A :=
  foldr (insert_by before) [] l.

(** [<] on [(float, int)] tuples: the first differing component decides. *)
Definition pair_lt (p q : R * nat) : bool :=
  if Reqb p.1 q.1 then bool_decide (p.2 < q.2) else Rltb p.1 q.1.

(** [l[:k]] *)
Definition slice_to {A} (l : list A) (k : Z) : list A :=
  if decide (0 <= k)%Z then take (Z.to_nat k) l
  else take (length l - Z.to_nat (- k)) l.

(** ** The MIMAGA object *)

(** Instance attributes.  The eight underscore attributes are the ones
    [__init__] assigns.  [mim_size] (no underscore) is the attribute that
    [_mim_filter] reads; neither [__init__] nor the class defines it, so it
    is present only on an instance on which a caller has assigned it. *)
Record MIMAGA : Type := {
  _mim_size : Z;
  _pop_size : Z;
  _max_iter : Z;
  _f_target : R;
  _k1 : R;
  _k2 : R;
  _k3 : R;
  _k4 : R;
  mim_size : option Z
}.

Definition __init__ (mim_size pop_size max_iter : Z) (f_target k1 k2 k3 k4 : R)
    : MIMAGA :=
  {| _mim_size := mim_size; _pop_size := pop_size; _max_iter := max_iter;
     _f_target := f_target; _k1 := k1; _k2 := k2; _k3 := k3; _k4 := k4;
     mim_size := None |}.

(** [self.mim_size] *)
Definition getattr_mim_size (self : MIMAGA) : result Z :=
  match mim_size self with
  | Some k => Ok k
  | None => Raise (AttributeError "mim_size")
  end.

Definition _mim_filter (self : MIMAGA) (genes : list (list Z)) : result (list nat) :=
  let g_num := length genes in
  mi_vector ← genes_mutual_information genes;
  let seq_nums := seq 0 g_num in
  let ranked := map snd (sort_by pair_lt (zip mi_vector seq_nums)) in
  k ← getattr_mim_size self;
  Ok (slice_to ranked k).

(** ** Chromosome decoding *)

Definition decode_genes (mapping : dict nat nat) (chromosome : list Z)
    (train test : list (list Z)) : result (list (list Z) * list (list Z)) :=
  foldM (fun '(filtered_train, filtered_test) i =>
           bit ← getitem chromosome i;
           if decide (bit = 1%Z) then
             initial_index ← dict_get mapping i;
             tr ← getitem train initial_index;
             te ← getitem test initial_index;
             Ok (filtered_train ++ [tr], filtered_test ++ [te])
           else Ok (filtered_train, filtered_test))
        (seq 0 (length chromosome)) ([], []).

(** ** Adaptive probabilities *)

Definition _crossover_probability (self : MIMAGA) (f_max f_avg f_par : R) : R :=
  if Rge_dec f_par f_avg then
    if Req_dec_T f_max f_avg then 1%R
    else (_k1 self * ((f_max - f_par) / (f_max - f_avg)))%R
  else _k2 self.

Definition _mutation_probability (self : MIMAGA) (f_max f_avg f_par : R) : R :=
  if Rge_dec f_par f_avg then
    if Req_dec_T f_max f_avg then 1%R
    else (_k3 self * ((f_max - f_par) / (f_max - f_avg)))%R
  else _k4 self.

(** ** Strings of binary digits *)

Fixpoint bin_digits (p : positive) : string :=
  match p with
  | xH => "1"
  | xO p' => String.append (bin_digits p') "0"
  | xI p' => String.append (bin_digits p') "1"
  end.

(** [bin(n)] *)
Definition bin (n : Z) : string :=
  match n with
  | Z0 => "0b0"
  | Zpos p => String.append "0b" (bin_digits p)
  | Zneg p => String.append "-0b" (bin_digits p)
  end.

(** [s[k:]] for a non-negative [k]. *)
Definition str_from (k : nat) (s : string) : string :=
  String.substring k (String.length s - k) s.

Fixpoint zeros (n : nat) : string :=
  match n with
  | 0 => EmptyString
  | S n' => String "0" (zeros n')
  end.

(** [s.zfill(width)]: zeros go after a leading sign; a string that is
    already wide enough is returned as it is. *)
Definition zfill (s : string) (width : Z) : string :=
  let pad := zeros (Z.to_nat width - String.length s) in
  match s with
  | String c s' =>
      if decide (c = "+"%char \/ c = "-"%char) then String c (String.append pad s')
      else String.append pad s
  | EmptyString => pad
  end.

(** [int(c)] on a one-character string. *)
Definition int_of_char (c : ascii) : result Z :=
  let n := nat_of_ascii c in
  if decide (48 <= n <= 57) then Ok (Z.of_nat (n - 48)) else Raise ValueError.

(** [a << b] *)
Definition py_lshift (a b : Z) : result Z :=
  if decide (b < 0)%Z then Raise ValueError else Ok (Z.shiftl a b).

(** [int(r)]: truncation towards zero. *)
Definition py_int (r : R) : Z :=
  if Rle_dec 0 r then Int_part r else (- Int_part (- r))%Z.

(** [a.transpose()] *)
Fixpoint transpose (m : list (list Z)) : list (list Z) :=
  match m with
  | [] => []
  | row :: m' =>
      match m' with
      | [] => map (fun a => [a]) row
      | _ => zip_with cons row (transpose m')
      end
  end.

(** ** Shared state: the heap of chromosomes, the random source, the classifier *)

(** [heap]: the list objects that hold chromosomes, by address.
    [draws]: how many numbers the [random] module has handed out.
    [fits]: how many times the classifier has been fitted. *)
Record state : Type := State {
  heap : list (list Z);
  draws : nat;
  fits : nat
}.

Definition M (A : Type) : Type := state -> result A * state.

#[global] Instance M_ret : MRet M := fun A a s => (Ok a, s).
#[global] Instance M_bind : MBind M := fun A B f m s =>
  match m s with
  | (Ok a, s') => f a s'
  | (Raise e, s') => (Raise e, s')
  end.

Definition lift {A} (r : result A) : M A := fun s => (r, s).

(** A new list object. *)
Definition alloc (l : list Z) : M nat := fun s =>
  (Ok (length (heap s)),
   {| heap := heap s ++ [l]; draws := draws s; fits := fits s |}).

(** The list object at an address.  Every address handed out by [alloc] is
    in the heap; an address that is not denotes no object and the read
    fails. *)
Definition deref (r : nat) : M (list Z) := fun s =>
  (getitem (heap s) r, s).

(** In-place replacement of the contents of a list object. *)
Definition store (r : nat) (l : list Z) : M unit := fun s =>
  (Ok tt, {| heap := <[r := l]> (heap s); draws := draws s; fits := fits s |}).

Section Search.
(** The random source: the [n]-th raw number that [random] produces. *)
Variable random_source : nat -> Z.

(** The classifier pipeline and the score, used through their interface. *)
Variable clf_model : Type.
Variable clf_fit : list (list Z) -> list Z -> result clf_model.
Variable clf_predict : clf_model -> list (list Z) -> result (list Z).
Variable f1_score : list Z -> list Z -> result R.

(** [sklearn.model_selection.train_test_split(genes_T, classes, test_size=0.33)] *)
Variable train_test_split :
  list (list Z) -> list Z ->
  result (list (list Z) * list (list Z) * list Z * list Z).

(** [random.randint(a, b)]: a number of [a..b], both ends included. *)
Definition randint (a b : Z) : M Z := fun s =>
  if decide (b < a)%Z then (Raise ValueError, s)
  else (Ok (a + random_source (draws s) mod (b - a + 1))%Z,
        {| heap := heap s; draws := S (draws s); fits := fits s |}).

(** [clf.fit(...)]; [clf.predict(...)]; [f1_score(...)] *)
Definition fit_and_score (filtered_train : list (list Z)) (train_cl : list Z)
    (filtered_test : list (list Z)) (test_cl : list Z) : M R := fun s =>
  (clf ← clf_fit (transpose filtered_train) train_cl;
   predicted_classes ← clf_predict clf (transpose filtered_test);
   f1_score test_cl predicted_classes,
   {| heap := heap s; draws := draws s; fits := S (fits s) |}).

(** One round of the [for] loop of [population_fitness]. *)
Definition score_individual (mapping : dict nat nat) (population : list nat)
    (train : list (list Z)) (train_cl : list Z)
    (test : list (list Z)) (test_cl : list Z)
    (acc : list (nat * R) * R) (i : nat) : M (list (nat * R) * R) :=
  let '(code_fitness, f_sum) := acc in
  individual ← lift (getitem population i);
  chromosome ← deref individual;
  '(filtered_train, filtered_test) ←
    lift (decode_genes mapping chromosome train test);
  if decide (length filtered_train = 0) then mret (code_fitness, f_sum)
  else
    f ← fit_and_score filtered_train train_cl filtered_test test_cl;
    mret (code_fitness ++ [(individual, f)], (f_sum + f)%R).

Definition population_fitness (mapping : dict nat nat) (population : list nat)
    (train : list (list Z)) (train_cl : list Z)
    (test : list (list Z)) (test_cl : list Z)
    : M (list (nat * R) * R * R) :=
  '(code_fitness, f_sum) ←
    foldM (score_individual mapping population train train_cl test test_cl)
          (seq 0 (length population)) ([], 0%R);
  let code_fitness := sort_by (fun p q => Rltb q.2 p.2) code_fitness in
  top ← lift (getitem code_fitness 0);
  let f_max := top.2 in
  if decide (length population = 0) then lift (Raise ZeroDivisionError)
  else
    let f_avg := (f_sum / INR (length population))%R in
    mret (code_fitness, f_max, f_avg).

Definition crossover (x y : nat) : M (nat * nat) :=
  xs ← deref x;
  random_point ← randint 1 (Z.of_nat (length xs) - 1);
  ys ← deref y;
  let p := Z.to_nat random_point in
  child1 ← alloc (take p xs ++ drop p (take (length xs) ys));
  child2 ← alloc (take p ys ++ drop p xs);
  mret (child1, child2).

Definition mutation (x : nat) : M nat :=
  xs ← deref x;
  random_point ← randint 0 (Z.of_nat (length xs) - 1);
  let p := Z.to_nat random_point in
  bit ← lift (getitem xs p);
  _ ← store x (<[p := ((bit - 1) mod 2)%Z]> xs);
  mret x.

Definition cross_and_mutate (pc pm : R) (population : list (nat * R))
    : M (list nat * R) :=
  let n := length population in
  let cross_number := py_int (pc * INR n) in
  let mutate_number := py_int (pm * INR n) in
  let max_parent_f := 0%R in
  let new_population := map fst population in
  '(new_population, max_parent_f) ←
    foldM (fun '(new_population, max_parent_f) (_ : nat) =>
             i1 ← randint 0 (Z.of_nat n - 1);
             '(parent1, f1) ← lift (getitem population (Z.to_nat i1));
             i2 ← randint 0 (Z.of_nat n - 1);
             '(parent2, f2) ← lift (getitem population (Z.to_nat i2));
             '(child1, child2) ← crossover parent1 parent2;
             mret (new_population ++ [child1; child2],
                   Rmax (Rmax max_parent_f f1) f2))
          (seq 0 (Z.to_nat cross_number)) (new_population, max_parent_f);
  new_population ←
    foldM (fun new_population (_ : nat) =>
             i ← randint 0 (Z.of_nat n - 1);
             parent ← lift (getitem population (Z.to_nat i));
             mutant ← mutation parent.1;
             mret (new_population ++ [mutant]))
          (seq 0 (Z.to_nat mutate_number)) new_population;
  mret (new_population, max_parent_f).

Definition _initial_population (self : MIMAGA) : M (list nat) :=
  foldM (fun population (_ : nat) =>
           upper ← lift (py_lshift 2 (_mim_size self - 1));
           individual_num ← randint 1 upper;
           individual_code ←
             lift (mapM int_of_char
                     (list_ascii_of_string
                        (zfill (str_from 2 (bin individual_num))
                               (_mim_size self))));
           individual ← alloc individual_code;
           mret (population ++ [individual]))
        (seq 0 (Z.to_nat (_pop_size self))) [].

(** The [while] loop of [_aga_filter].  [counter] grows by one per
    iteration and the loop stops at [_max_iter], so [fuel] iterations
    are enough when [fuel >= _max_iter - counter] ([aga_loop_fuel]). *)
Fixpoint aga_loop (fuel : nat) (self : MIMAGA) (max_size : Z)
    (mapping : dict nat nat)
    (train : list (list Z)) (train_cl : list Z)
    (test : list (list Z)) (test_cl : list Z)
    (population : list nat) (f_par f_max : R) (counter : Z)
    (best_individual : nat) : M (nat * R) :=
  if bool_decide (counter < _max_iter self)%Z && Rltb f_max (_f_target self) then
    match fuel with
    | 0 => mret (best_individual, f_max)
    | S fuel' =>
        '(code_fitness, f_max, f_avg) ←
          population_fitness mapping population train train_cl test test_cl;
        let '(code_fitness, population) :=
          if decide (max_size < Z.of_nat (length code_fitness))%Z then
            let code_fitness := slice_to code_fitness max_size in
            (code_fitness, map fst code_fitness)
          else (code_fitness, population) in
        let highly_fitted :=
          List.filter (fun x => Rleb (f_max / 2) x.2) code_fitness in
        let highly_fitted :=
          if decide (length highly_fitted = 0) then code_fitness
          else highly_fitted in
        top ← lift (getitem code_fitness 0);
        let best_individual := top.1 in
        let pc := _crossover_probability self f_max f_avg f_par in
        let pm := _mutation_probability self f_max f_avg f_par in
        '(new_generation, f_par) ← cross_and_mutate pc pm highly_fitted;
        let population := population ++ new_generation in
        aga_loop fuel' self max_size mapping train train_cl test test_cl
                 population f_par f_max (counter + 1)%Z best_individual
    end
  else mret (best_individual, f_max).

Definition _aga_filter (self : MIMAGA) (max_size : Z) (mapping : dict nat nat)
    (population : list nat)
    (train : list (list Z)) (train_cl : list Z)
    (test : list (list Z)) (test_cl : list Z) : M (nat * R) :=
  first ← lift (getitem population 0);
  chromosome ← deref first;
  best_individual ← alloc (replicate (length chromosome) 1%Z);
  aga_loop (Z.to_nat (_max_iter self)) self max_size mapping
           train train_cl test test_cl population 0%R 0%R 0%Z best_individual.

Definition mimaga_filter (self : MIMAGA) (genes : list (list Z))
    (classes : list Z) : M (list (list Z) * R) :=
  let genes_T := transpose genes in
  '(train_set, test_set, train_classes, test_classes) ←
    lift (train_test_split genes_T classes);
  filtered_indexes ← lift (_mim_filter self (transpose train_set));
  let index_map :=
    dict_of_pairs (zip (seq 0 (Z.to_nat (_mim_size self))) filtered_indexes) in
  first_population ← _initial_population self;
  '(best, max_fitness) ←
    _aga_filter self (_pop_size self * 2)%Z index_map first_population
                (transpose train_set) train_classes
                (transpose test_set) test_classes;
  chromosome ← deref best;
  '(result_genes, _) ←
    lift (decode_genes index_map chromosome
                       (transpose train_set) (transpose test_set));
  mret (result_genes, max_fitness).
End Search.

(** * Definitions used in the statements *)

(** ** Reference definitions *)

(** How often [k] occurs in [l]. *)
Definition occurrences (k : Z) (l : list Z) : Z :=
  Z.of_nat (length (List.filter (Z.eqb k) l)).

(** Written from the specification, for comparison with [marginal_entropy]:
    the empirical Shannon entropy.  Each distinct value [v] of [x] has
    probability [p_v = (occurrences of v in x) / len(x)] and contributes
    the single term [p_v * log p_v] when [p_v > 0]; the result is the
    negated sum of these terms. *)
Definition shannon_entropy (x : list Z) : R :=
  let p (v : Z) : R := (IZR (occurrences v x) / IZR (Z.of_nat (length x)))%R in
  (- py_sum (map (fun v => if Rlt_dec 0 (p v) then p v * ln (p v) else 0)%R
                 (remove_dups x)))%R.

(** All rows have the same number of samples, as in a 2-D array. *)
Definition rectangular (genes : list (list Z)) : Prop :=
  exists n, Forall (fun row => length row = n) genes.


(** A [g] x [g] array. *)
Definition square (g : nat) (m : list (list R)) : Prop :=
  length m = g /\ Forall (fun row => length row = g) m.

(** The chromosome built from the number [n] for [m] reduced features:
    [list(map(int, bin(n)[2:].zfill(m)))]. *)
Definition code_of (n m : Z) : result (list Z) :=
  mapM int_of_char (list_ascii_of_string (zfill (str_from 2 (bin n)) m)).

(** The binary digits of [p], most significant first. *)
Fixpoint bits (p : positive) : list Z :=
  match p with
  | xH => [1%Z]
  | xO p' => bits p' ++ [0%Z]
  | xI p' => bits p' ++ [1%Z]
  end.

(** ** Sample inputs *)

(** The configuration of the commented example at the end of the module:
    [MIMAGA(30, 20, 20, 0.8, 0.6, 0.3, 0.9, 0.001)]. *)
Definition example_mimaga : MIMAGA :=
  __init__ 30 20 20 (8 / 10) (6 / 10) (3 / 10) (9 / 10) (1 / 1000).

(** [MIMAGA(2, 1, 0, 0.8, 0.6, 0.3, 0.9, 0.001)]: no iteration allowed. *)
Definition no_iteration : MIMAGA :=
  __init__ 2 1 0 (8 / 10) (6 / 10) (3 / 10) (9 / 10) (1 / 1000).

(** [MIMAGA(1, 1, 0, 0.8, 0.6, 0.3, 0.9, 0.001)]: one reduced feature, one
    individual. *)
Definition one_feature : MIMAGA :=
  __init__ 1 1 0 (8 / 10) (6 / 10) (3 / 10) (9 / 10) (1 / 1000).

(** An instance with one reduced feature and no iteration, on which a
    caller has assigned the attribute [mim_size]. *)
Definition patched_mimaga : MIMAGA :=
  {| _mim_size := 1; _pop_size := 1; _max_iter := 0; _f_target := (8 / 10)%R;
     _k1 := (6 / 10)%R; _k2 := (3 / 10)%R; _k3 := (9 / 10)%R;
     _k4 := (1 / 1000)%R; mim_size := Some 1%Z |}.

(** A stand-in classifier that fits anything and scores [1]. *)
Definition always_fit : list (list Z) -> list Z -> result unit :=
  fun _ _ => Ok tt.
Definition predict_nothing : unit -> list (list Z) -> result (list Z) :=
  fun _ _ => Ok [].
Definition score_one : list Z -> list Z -> result R :=
  fun _ _ => Ok 1%R.

(** A stand-in split: the first sample for training, the rest for testing. *)
Definition split_first :
    list (list Z) -> list Z ->
    result (list (list Z) * list (list Z) * list Z * list Z) :=
  fun genes_T classes =>
    Ok (take 1 genes_T, drop 1 genes_T, take 1 classes, drop 1 classes).

(** No chromosome yet. *)
Definition empty_heap : state := {| heap := []; draws := 0; fits := 0 |}.

(** One chromosome [[0; 1]] at address 0. *)
Definition single_parent : state :=
  {| heap := [[0; 1]%Z]; draws := 0; fits := 0 |}.

(** Two one-bit chromosomes: [[1]] at address 0, [[0]] at address 1. *)
Definition one_and_zero : state :=
  {| heap := [[1]; [0]]%Z; draws := 0; fits := 0 |}.

(** Two all-zero chromosomes. *)
Definition all_zero : state :=
  {| heap := [[0; 0]; [0]]%Z; draws := 0; fits := 0 |}.

(** * Properties *)

(** ** Loops *)

Lemma foldM_cons {M : Type -> Type} `{!MRet M, !MBind M} {A B}
    (f : B -> A -> M B) (a : A) (l : list A) (acc : B) :
  foldM f (a :: l) acc = (acc' ← f acc a; foldM f l acc').
Proof. reflexivity. Qed.

Lemma foldM_app {A B} (f : B -> A -> result B) (l1 l2 : list A) (acc : B) :
  foldM f (l1 ++ l2) acc = (acc' ← foldM f l1 acc; foldM f l2 acc').
Proof.
  revert acc. induction l1 as [|a l1 IH]; intros acc.
  - reflexivity.
  - simpl app. rewrite !foldM_cons. destruct (f acc a) as [acc1|e]; cbn.
    + apply IH.
    + reflexivity.
Qed.

Lemma foldM_total {A B} (f : B -> A -> result B) (l : list A) :
  (forall acc a, a ∈ l -> exists acc', f acc a = Ok acc') ->
  forall acc, exists acc', foldM f l acc = Ok acc'.
Proof.
  induction l as [|a l IH]; intros Hf acc.
  - now exists acc.
  - destruct (Hf acc a) as [acc1 Hacc1]; [now left|].
    rewrite foldM_cons, Hacc1. cbn.
    apply IH. intros acc2 b Hb. apply Hf. now right.
Qed.

Lemma foldM_invariant {A B} (P : B -> Prop) (f : B -> A -> result B) (l : list A) :
  (forall acc a, a ∈ l -> P acc -> exists acc', f acc a = Ok acc' /\ P acc') ->
  forall acc, P acc -> exists acc', foldM f l acc = Ok acc' /\ P acc'.
Proof.
  induction l as [|a l IH]; intros Hf acc Hacc.
  - now exists acc.
  - destruct (Hf acc a) as (acc1 & Hstep & Hacc1); [now left | exact Hacc |].
    rewrite foldM_cons, Hstep. cbn.
    apply IH; [|exact Hacc1]. intros acc2 b Hb. apply Hf. now right.
Qed.

Lemma mapM_Ok {A B} (f : A -> result B) (g : A -> B) (l : list A) :
  (forall a, a ∈ l -> f a = Ok (g a)) -> mapM f l = Ok (map g l).
Proof.
  induction l as [|a l IH]; intros Hf.
  - reflexivity.
  - cbn. rewrite (Hf a) by (now left). cbn.
    rewrite IH by (intros b Hb; apply Hf; now right). reflexivity.
Qed.

Lemma mapM_total {A B} (f : A -> result B) (l : list A) :
  (forall a, a ∈ l -> exists b, f a = Ok b) -> exists bs, mapM f l = Ok bs.
Proof.
  induction l as [|a l IH]; intros Hf.
  - now exists [].
  - destruct (Hf a) as [b Hb]; [now left|].
    destruct IH as [bs Hbs]; [intros c Hc; apply Hf; now right|].
    exists (b :: bs). cbn. rewrite Hb. cbn. rewrite Hbs. reflexivity.
Qed.

Lemma mapM_app {A B} (f : A -> result B) (l1 l2 : list A) (r1 r2 : list B) :
  mapM f l1 = Ok r1 -> mapM f l2 = Ok r2 -> mapM f (l1 ++ l2) = Ok (r1 ++ r2).
Proof.
  revert r1. induction l1 as [|a l1 IH]; intros r1 H1 H2.
  - inversion H1. exact H2.
  - cbn in H1. cbn. destruct (f a) as [b|]; [|discriminate]. cbn in *.
    destruct (mapM f l1) as [bs|] eqn:Hbs; [|discriminate]. cbn in *.
    inversion H1. rewrite (IH bs eq_refl H2). reflexivity.
Qed.

Lemma foldM_counted {A B} (P : nat -> B -> state -> Prop) (f : B -> A -> M B)
    (l : list A) :
  (forall k acc a s, P k acc s ->
     exists acc' s', f acc a s = (Ok acc', s') /\ P (S k) acc' s') ->
  forall k acc s, P k acc s ->
    exists acc' s', foldM f l acc s = (Ok acc', s') /\ P (k + length l) acc' s'.
Proof.
  intros Hf. induction l as [|a l IH]; intros k acc s HP.
  - exists acc, s. rewrite Nat.add_0_r. now split.
  - destruct (Hf k acc a s HP) as (acc1 & s1 & Hstep & HP1).
    destruct (IH (S k) acc1 s1 HP1) as (acc2 & s2 & Hloop & HP2).
    exists acc2, s2. split.
    + rewrite foldM_cons. unfold mbind, M_bind. rewrite Hstep. exact Hloop.
    + simpl length. replace (k + S (length l)) with (S k + length l) by lia.
      exact HP2.
Qed.

(** ** Sums, comparisons and sorting *)

Lemma py_sum_from (l : list R) (a : R) :
  fold_left Rplus l a = (a + py_sum l)%R.
Proof.
  unfold py_sum. revert a. induction l as [|b l IH]; intros a; simpl.
  - lra.
  - rewrite (IH (a + b)%R), (IH (0 + b)%R). lra.
Qed.

Lemma py_sum_cons (a : R) (l : list R) : py_sum (a :: l) = (a + py_sum l)%R.
Proof. unfold py_sum at 1. simpl. rewrite py_sum_from. lra. Qed.

Lemma py_sum_app (l1 l2 : list R) : py_sum (l1 ++ l2) = (py_sum l1 + py_sum l2)%R.
Proof.
  induction l1 as [|a l1 IH]; simpl.
  - unfold py_sum at 2. simpl. lra.
  - rewrite !py_sum_cons, IH. lra.
Qed.

Lemma py_sum_Permutation (l1 l2 : list R) :
  Permutation l1 l2 -> py_sum l1 = py_sum l2.
Proof.
  induction 1 as [|a l1 l2 _ IH|a b l|l1 l2 l3 _ IH1 _ IH2].
  - reflexivity.
  - rewrite !py_sum_cons, IH. reflexivity.
  - rewrite !py_sum_cons. lra.
  - now rewrite IH1.
Qed.

Lemma Rltb_true (a b : R) : (a < b)%R -> Rltb a b = true.
Proof. intros H. unfold Rltb. destruct (Rlt_dec a b); [reflexivity | contradiction]. Qed.

Lemma filter_positive (probs : list R) :
  Forall (fun p => (0 < p)%R) probs ->
  List.filter (fun p => Rltb 0 p) probs = probs.
Proof.
  induction 1 as [|p probs Hp _ IH]; simpl.
  - reflexivity.
  - rewrite (Rltb_true _ _ Hp), IH. reflexivity.
Qed.

Lemma neg_plogp_positive (probs : list R) :
  Forall (fun p => (0 < p)%R) probs ->
  neg_plogp probs = (- py_sum (map (fun p => p * ln p)%R probs))%R.
Proof. intros H. unfold neg_plogp. now rewrite filter_positive. Qed.

Lemma ln_half : ln (2 / 4) = (- ln 2)%R.
Proof.
  replace (2 / 4)%R with (/ 2)%R by lra.
  apply ln_Rinv. lra.
Qed.

Lemma py_int_eq (r : R) (z : Z) :
  (0 <= r)%R -> (IZR z <= r < IZR z + 1)%R -> py_int r = z.
Proof.
  intros Hpos Hz. unfold py_int.
  destruct (Rle_dec 0 r); [|contradiction].
  symmetry. apply Int_part_spec. lra.
Qed.

Lemma insert_by_Permutation {A} (before : A -> A -> bool) (a : A) (l : list A) :
  Permutation (insert_by before a l) (a :: l).
Proof.
  induction l as [|b l IH]; simpl.
  - reflexivity.
  - destruct (before b a).
    + rewrite IH. apply perm_swap.
    + reflexivity.
Qed.

Lemma sort_by_Permutation {A} (before : A -> A -> bool) (l : list A) :
  Permutation (sort_by before l) l.
Proof.
  induction l as [|a l IH]; simpl.
  - reflexivity.
  - rewrite insert_by_Permutation. now constructor.
Qed.

(** ** Dictionaries and counters *)

Section DictFacts.
Context {K V : Type} `{EqDecision K}.
Implicit Types (d : dict K V) (k : K) (v : V).

Lemma dict_lookup_set d k v k' :
  dict_lookup (dict_set d k v) k'
  = if decide (k = k') then Some v else dict_lookup d k'.
Proof.
  induction d as [|[k0 v0] d IH]; simpl.
  - reflexivity.
  - destruct (decide (k0 = k)) as [->|Hne]; simpl.
    + destruct (decide (k = k')); reflexivity.
    + rewrite IH. destruct (decide (k0 = k')) as [->|]; [|reflexivity].
      destruct (decide (k = k')); [congruence | reflexivity].
Qed.

Lemma dict_comp_lookup_from (f : K -> V) (l : list K) d k :
  dict_lookup (fold_left (fun d k => dict_set d k (f k)) l d) k
  = if decide (k ∈ l) then Some (f k) else dict_lookup d k.
Proof.
  revert d. induction l as [|a l IH]; intros d; simpl.
  - destruct (decide (k ∈ [])) as [Hin|]; [inversion Hin | reflexivity].
  - rewrite IH, dict_lookup_set.
    destruct (decide (k ∈ l)) as [Hin|Hnin].
    + rewrite decide_True by (now right). reflexivity.
    + destruct (decide (a = k)) as [->|Hne].
      * rewrite decide_True by (now left). reflexivity.
      * rewrite decide_False; [reflexivity|].
        intros Hin. apply elem_of_cons in Hin as [->|Hin]; [now apply Hne | now apply Hnin].
Qed.

Lemma dict_comp_lookup (f : K -> V) (l : list K) k :
  dict_lookup (dict_comp f l) k = if decide (k ∈ l) then Some (f k) else None.
Proof. apply dict_comp_lookup_from. Qed.

Lemma dict_keys_lookup d k : k ∈ dict_keys d <-> is_Some (dict_lookup d k).
Proof.
  unfold dict_keys. induction d as [|[k0 v0] d IH]; simpl.
  - split; [intros Hin; inversion Hin | intros [? ?]; discriminate].
  - destruct (decide (k0 = k)) as [->|Hne].
    + split; [eauto | intros _; now left].
    + rewrite elem_of_cons, IH. split; [intros [?|?]; congruence | auto].
Qed.

Lemma dict_get_Some d k v : dict_lookup d k = Some v -> dict_get d k = Ok v.
Proof. intros H. unfold dict_get. now rewrite H. Qed.
End DictFacts.

Lemma occurrences_nonneg k l : (0 <= occurrences k l)%Z.
Proof. unfold occurrences. lia. Qed.

Lemma occurrences_cons k a l :
  occurrences k (a :: l)
  = ((if decide (a = k) then 1 else 0) + occurrences k l)%Z.
Proof.
  unfold occurrences. simpl.
  destruct (decide (a = k)) as [->|Hne].
  - rewrite Z.eqb_refl. simpl. lia.
  - destruct (Z.eqb_spec k a); [congruence | lia].
Qed.

Lemma occurrences_pos k l : k ∈ l -> (0 < occurrences k l)%Z.
Proof.
  induction 1 as [k l|k a l _ IH]; rewrite occurrences_cons.
  - rewrite decide_True by reflexivity. pose proof (occurrences_nonneg k l). lia.
  - destruct (decide (a = k)); lia.
Qed.

Lemma count_up_Some counter xi c :
  dict_lookup counter xi = Some c ->
  count_up counter xi = Ok (dict_set counter xi (c + 1)%Z).
Proof. intros H. unfold count_up. now rewrite (dict_get_Some _ _ _ H). Qed.

(** The counting loop adds to each count the number of occurrences. *)
Lemma count_loop (l : list Z) : forall counter : dict Z Z,
  (forall k, k ∈ l -> is_Some (dict_lookup counter k)) ->
  exists counter',
    foldM count_up l counter = Ok counter' /\
    forall k, dict_lookup counter' k
              = (fun c => (c + occurrences k l)%Z) <$> dict_lookup counter k.
Proof.
  induction l as [|a l IH]; intros counter Hkeys.
  - exists counter. split; [reflexivity|]. intros k.
    destruct (dict_lookup counter k); simpl; [|reflexivity].
    f_equal. unfold occurrences. simpl. lia.
  - destruct (Hkeys a) as [c Hc]; [now left|].
    rewrite foldM_cons, (count_up_Some _ _ _ Hc). cbn.
    destruct (IH (dict_set counter a (c + 1)%Z)) as (counter' & Hloop & Hcount).
    { intros k Hk. rewrite dict_lookup_set.
      destruct (decide (a = k)); [eauto | apply Hkeys; now right]. }
    exists counter'. split; [exact Hloop|]. intros k.
    rewrite Hcount, dict_lookup_set, occurrences_cons.
    destruct (decide (a = k)) as [->|Hne].
    + rewrite Hc. simpl. f_equal. lia.
    + destruct (dict_lookup counter k); simpl; [f_equal; lia | reflexivity].
Qed.

(** ** Marginal entropy *)

(** What [marginal_entropy] computes: the probability list has one entry
    per element of [x], so a value that occurs [c] times contributes [c]
    equal terms. *)
Lemma marginal_entropy_eq (x : list Z) :
  marginal_entropy x
  = Ok (neg_plogp
          (map (fun xi => (IZR (occurrences xi x) / IZR (Z.of_nat (length x)))%R) x)).
Proof.
  unfold marginal_entropy.
  destruct (count_loop x (dict_comp (fun _ => 0%Z) x)) as (counter & -> & Hcount).
  { intros k Hk. rewrite dict_comp_lookup, decide_True by exact Hk. eauto. }
  cbn. rewrite (mapM_Ok _
    (fun xi => (IZR (occurrences xi x) / IZR (Z.of_nat (length x)))%R)).
  - reflexivity.
  - intros xi Hxi.
    assert (dict_lookup counter xi = Some (occurrences xi x)) as Hc.
    { rewrite Hcount, dict_comp_lookup, decide_True by exact Hxi. reflexivity. }
    rewrite (dict_get_Some _ _ _ Hc). cbn. unfold int_truediv.
    rewrite decide_False; [reflexivity|].
    destruct x; [inversion Hxi | simpl; lia].
Qed.

Lemma py_sum_map_plus {A} (f h : A -> R) (l : list A) :
  py_sum (map (fun a => f a + h a)%R l) = (py_sum (map f l) + py_sum (map h l))%R.
Proof.
  induction l as [|a l IH]; simpl.
  - unfold py_sum. simpl. lra.
  - rewrite !py_sum_cons, IH. lra.
Qed.

Lemma py_sum_indicator (g : Z -> R) (a : Z) (l : list Z) :
  NoDup l ->
  py_sum (map (fun v => IZR (if decide (a = v) then 1 else 0) * g v)%R l)
  = if decide (a ∈ l) then g a else 0%R.
Proof.
  induction 1 as [|b l Hb _ IH]; simpl.
  - reflexivity.
  - rewrite py_sum_cons, IH.
    destruct (decide (a = b)) as [->|Hne].
    + destruct (decide (b ∈ l)); [contradiction|].
      destruct (decide (b ∈ b :: l)) as [_|Hnin]; [lra|].
      exfalso. apply Hnin. now left.
    + destruct (decide (a ∈ l)) as [Hin|Hnin];
        destruct (decide (a ∈ b :: l)) as [Hin'|Hnin']; try lra.
      * exfalso. apply Hnin'. now right.
      * apply elem_of_cons in Hin' as [?|?]; contradiction.
Qed.

Lemma occurrences_absent (k : Z) (l : list Z) : k ∉ l -> occurrences k l = 0%Z.
Proof.
  induction l as [|a l IH]; intros Hk.
  - reflexivity.
  - rewrite occurrences_cons, IH.
    + rewrite decide_False; [reflexivity|]. intros ->. apply Hk. now left.
    + intros Hin. apply Hk. now right.
Qed.

Lemma py_sum_by_value (g : Z -> R) (x : list Z) :
  py_sum (map g x)
  = py_sum (map (fun v => IZR (occurrences v x) * g v)%R (remove_dups x)).
Proof.
  induction x as [|a x IH].
  - reflexivity.
  - change (map g (a :: x)) with (g a :: map g x). rewrite py_sum_cons, IH.
    assert (forall l,
      py_sum (map (fun v => IZR (occurrences v (a :: x)) * g v)%R l)
      = (py_sum (map (fun v => IZR (if decide (a = v) then 1 else 0) * g v)%R l)
         + py_sum (map (fun v => IZR (occurrences v x) * g v)%R l))%R) as Hsplit.
    { intros l. rewrite <- py_sum_map_plus. f_equal. apply map_ext. intros v.
      rewrite occurrences_cons, plus_IZR. ring. }
    simpl remove_dups. destruct (decide_rel elem_of a x) as [Hin|Hnin].
    + rewrite Hsplit, py_sum_indicator by apply NoDup_remove_dups.
      rewrite decide_True by (now apply elem_of_remove_dups). reflexivity.
    + change (map ?f (a :: ?l)) with (f a :: map f l).
      rewrite py_sum_cons, Hsplit, py_sum_indicator by apply NoDup_remove_dups.
      rewrite decide_False by (now rewrite elem_of_remove_dups).
      rewrite occurrences_cons, (occurrences_absent a x Hnin).
      rewrite decide_True by reflexivity. rewrite Z.add_0_r. lra.
Qed.

(** The same sum, grouped by value: a value that occurs [c] times
    contributes [c] times the term that the Shannon entropy counts once. *)
Lemma marginal_entropy_by_value (x : list Z) :
  let p (v : Z) : R := (IZR (occurrences v x) / IZR (Z.of_nat (length x)))%R in
  marginal_entropy x
  = Ok (- py_sum (map (fun v => IZR (occurrences v x) * (p v * ln (p v)))%R
                      (remove_dups x)))%R.
Proof.
  intros p. rewrite marginal_entropy_eq. f_equal.
  rewrite neg_plogp_positive.
  - rewrite map_map. f_equal. apply (py_sum_by_value (fun v => p v * ln (p v))%R).
  - apply Forall_forall. intros q Hq.
    apply list_elem_of_In, in_map_iff in Hq as (xi & <- & Hxi).
    apply list_elem_of_In in Hxi.
    pose proof (occurrences_pos xi x Hxi) as Hocc.
    assert (0 < Z.of_nat (length x))%Z as Hlen
      by (destruct x; [inversion Hxi | simpl; lia]).
    apply IZR_lt in Hocc, Hlen. now apply Rdiv_lt_0_compat.
Qed.

Lemma marginal_entropy_nil : marginal_entropy [] = Ok (- 0)%R.
Proof. reflexivity. Qed.

(** C9 (as amended).  On the empty sequence [marginal_entropy] does not
    raise: no count is ever divided by the zero length, and the function
    returns [0]. *)
Theorem marginal_entropy_empty : marginal_entropy [] = Ok 0%R.
Proof. rewrite marginal_entropy_nil. f_equal. lra. Qed.

(** C9 fails as stated: the call on the empty sequence returns. *)
Lemma marginal_entropy_empty_does_not_raise :
  ~ (exists e : exn, marginal_entropy [] = Raise e).
Proof. intros [e He]. rewrite marginal_entropy_nil in He. discriminate He. Qed.

(** C1 (what the code does at a concrete input).  On [[0; 0; 1; 1]] both
    values have probability [1/2] and the Shannon entropy is [ln 2];
    [marginal_entropy] sums one term per element of the sequence instead of
    one per distinct value, and returns [2 * ln 2]. *)
Theorem marginal_entropy_counts_every_element :
  marginal_entropy [0; 0; 1; 1]%Z = Ok (2 * ln 2)%R /\
  shannon_entropy [0; 0; 1; 1]%Z = ln 2 /\
  (2 * ln 2)%R <> ln 2.
Proof.
  split; [|split].
  - change (marginal_entropy [0; 0; 1; 1]%Z)
      with (Ok (neg_plogp [2 / 4; 2 / 4; 2 / 4; 2 / 4]%R)).
    f_equal. rewrite neg_plogp_positive by (repeat constructor; lra).
    unfold py_sum. simpl. rewrite ln_half. lra.
  - unfold shannon_entropy, py_sum.
    change (remove_dups [0; 0; 1; 1]%Z) with [0; 1]%Z.
    cbn [map fold_left].
    change (occurrences 0 [0; 0; 1; 1]%Z) with 2%Z.
    change (occurrences 1 [0; 0; 1; 1]%Z) with 2%Z.
    change (Z.of_nat (length [0; 0; 1; 1]%Z)) with 4%Z.
    destruct (Rlt_dec 0 (2 / 4)); [|lra].
    rewrite ln_half. lra.
  - pose proof ln_lt_2. lra.
Qed.

(** ** Conditional entropy and mutual information on rows of equal length *)

Section ConditionalEntropy.
Variables x y : list Z.

(** The state of the counting loop of [conditional_entropy] after the
    positions below [n]: the keys are the values of [y], a key seen so far
    has a positive count, and every inner counter has the values of [x]
    as keys. *)
Definition counters_ok (n : nat) (st : dict Z Z * dict Z (dict Z Z)) : Prop :=
  (forall k, is_Some (dict_lookup st.1 k) <-> k ∈ y) /\
  (forall k c, dict_lookup st.1 k = Some c -> k ∈ take n y -> (0 < c)%Z) /\
  (forall k c, dict_lookup st.1 k = Some c -> (0 <= c)%Z) /\
  (forall k, k ∈ y ->
     exists inner, dict_lookup st.2 k = Some inner /\
                   forall xi, xi ∈ x -> is_Some (dict_lookup inner xi)).

Lemma counters_ok_initial :
  counters_ok 0 (dict_comp (fun _ => 0%Z) y,
                 dict_comp (fun _ => dict_comp (fun _ => 0%Z) x) y).
Proof.
  split; [|split; [|split]]; simpl.
  - intros k. rewrite dict_comp_lookup.
    destruct (decide (k ∈ y)) as [Hin|Hnin]; split.
    + intros _. exact Hin.
    + intros _. now exists 0%Z.
    + intros [c Hc]. discriminate.
    + intros Hin. contradiction.
  - intros k c _ Hin. rewrite take_0 in Hin. inversion Hin.
  - intros k c. rewrite dict_comp_lookup.
    destruct (decide (k ∈ y)); intros Hc; inversion Hc. lia.
  - intros k Hk. eexists. rewrite dict_comp_lookup, decide_True by exact Hk.
    split; [reflexivity|].
    intros xi Hxi. rewrite dict_comp_lookup, decide_True by exact Hxi. eauto.
Qed.

Lemma count_pair_ok (n : nat) (st : dict Z Z * dict Z (dict Z Z)) :
  counters_ok n st -> n < length x -> n < length y ->
  exists st', count_pair x y st n = Ok st' /\ counters_ok (S n) st'.
Proof.
  destruct st as [y_counter x_by_y_counter].
  intros (Hkeys & Hpos & Hnonneg & Hinner) Hnx Hny. simpl in *.
  destruct (lookup_lt_is_Some_2 x n Hnx) as [xi Hxi].
  destruct (lookup_lt_is_Some_2 y n Hny) as [yi Hyi].
  assert (xi ∈ x) as Hxin by (now apply list_elem_of_lookup_2 with n).
  assert (yi ∈ y) as Hyin by (now apply list_elem_of_lookup_2 with n).
  destruct (proj2 (Hkeys yi) Hyin) as [c Hc].
  destruct (Hinner yi Hyin) as (inner & Hin & Hinkeys).
  destruct (Hinkeys xi Hxin) as [cx Hcx].
  eexists. split.
  - unfold count_pair, getitem. rewrite Hxi, Hyi. cbn.
    rewrite (count_up_Some _ _ _ Hc). cbn.
    rewrite (dict_get_Some _ _ _ Hin). cbn.
    rewrite (count_up_Some _ _ _ Hcx). cbn. reflexivity.
  - split; [|split; [|split]]; simpl.
    + intros k. rewrite dict_lookup_set, <- Hkeys.
      destruct (decide (yi = k)) as [<-|]; [split; eauto | reflexivity].
    + intros k c'. rewrite dict_lookup_set, (take_S_r _ _ _ Hyi).
      destruct (decide (yi = k)) as [<-|Hne].
      * intros Hc' _. inversion Hc'. pose proof (Hnonneg _ _ Hc). lia.
      * intros Hc' Hk. apply elem_of_app in Hk as [Hk|Hk].
        -- now apply (Hpos k).
        -- apply list_elem_of_singleton in Hk. congruence.
    + intros k c'. rewrite dict_lookup_set.
      destruct (decide (yi = k)) as [<-|Hne].
      * intros Hc'. inversion Hc'. pose proof (Hnonneg _ _ Hc). lia.
      * apply Hnonneg.
    + intros k Hk. rewrite dict_lookup_set.
      destruct (decide (yi = k)) as [<-|Hne]; [|now apply Hinner].
      eexists. split; [reflexivity|].
      intros xi' Hxi'. rewrite dict_lookup_set.
      destruct (decide (xi = xi')); [eauto | now apply Hinkeys].
Qed.

Lemma count_pair_loop (n : nat) :
  n <= length x -> n <= length y ->
  exists st,
    foldM (count_pair x y) (seq 0 n)
          (dict_comp (fun _ => 0%Z) y,
           dict_comp (fun _ => dict_comp (fun _ => 0%Z) x) y)
    = Ok st /\
    counters_ok n st.
Proof.
  induction n as [|n IH]; intros Hnx Hny.
  - eexists. split; [reflexivity | apply counters_ok_initial].
  - destruct IH as (st & Hloop & Hok); [lia | lia |].
    destruct (count_pair_ok n st Hok) as (st' & Hstep & Hok'); [lia | lia |].
    exists st'. split; [|exact Hok'].
    rewrite seq_S, foldM_app, Hloop. cbn. rewrite Hstep. reflexivity.
Qed.

Lemma conditional_entropy_total :
  length x = length y -> exists h, conditional_entropy x y = Ok h.
Proof.
  intros Hlen. unfold conditional_entropy.
  destruct (count_pair_loop (length x)) as ([y_counter x_by_y_counter] & -> & Hok);
    [lia | lia |].
  destruct Hok as (Hkeys & Hpos & _ & Hinner). simpl in *. cbn.
  apply foldM_total. intros entropy yi Hyi.
  apply dict_keys_lookup in Hyi as Hsome. destruct Hsome as [c Hc].
  assert (yi ∈ y) as Hyin by (apply Hkeys; eauto).
  assert (0 < c)%Z as Hcpos.
  { apply (Hpos yi c Hc). rewrite Hlen, firstn_all. exact Hyin. }
  destruct (Hinner yi Hyin) as (inner & Hin & _).
  rewrite (dict_get_Some _ _ _ Hin). cbn.
  destruct (mapM_total (fun xi => n ← dict_get y_counter yi; int_truediv xi n)
                       (dict_values inner)) as [x_by_yi ->].
  { intros xi _. rewrite (dict_get_Some _ _ _ Hc). cbn. unfold int_truediv.
    rewrite decide_False by lia. eauto. }
  cbn. rewrite (dict_get_Some _ _ _ Hc). cbn. unfold int_truediv.
  rewrite decide_False; [cbn; eauto|].
  destruct y; [inversion Hyin | simpl; lia].
Qed.
End ConditionalEntropy.

Lemma mutual_information_total (x y : list Z) :
  length x = length y -> exists v, mutual_information x y = Ok v.
Proof.
  intros Hlen. unfold mutual_information. rewrite marginal_entropy_eq. cbn.
  destruct (conditional_entropy_total x y Hlen) as [h ->]. cbn. eauto.
Qed.

(** ** The MIM stage *)

Lemma setitem2_square g m i j v :
  square g m -> i < g -> j < g ->
  exists m', setitem2 m i j v = Ok m' /\ square g m'.
Proof.
  intros [Hlen Hrows] Hi Hj. unfold setitem2, getitem.
  destruct (lookup_lt_is_Some_2 m i) as [row Hrow]; [lia|].
  assert (length row = g) as Hrowlen.
  { rewrite Forall_forall in Hrows. apply Hrows.
    now apply list_elem_of_lookup_2 with i. }
  rewrite Hrow. cbn. rewrite decide_True by lia.
  eexists. split; [reflexivity|]. split.
  - now rewrite length_insert.
  - apply Forall_insert; [exact Hrows|]. now rewrite length_insert.
Qed.

Lemma genes_mutual_information_total (genes : list (list Z)) :
  rectangular genes -> exists mi_vector, genes_mutual_information genes = Ok mi_vector.
Proof.
  intros [n Hrect]. rewrite Forall_forall in Hrect.
  unfold genes_mutual_information.
  set (g := length genes).
  assert (forall i, i ∈ seq 0 g -> exists row, genes !! i = Some row /\ length row = n)
    as Hrow.
  { intros i Hi. apply elem_of_seq in Hi as [_ Hi].
    destruct (lookup_lt_is_Some_2 genes i) as [row Hrow]; [exact Hi|].
    exists row. split; [exact Hrow|].
    apply Hrect. now apply list_elem_of_lookup_2 with i. }
  match goal with
  | |- context [foldM ?f (seq 0 g) ?init] =>
      destruct (foldM_invariant (square g) f (seq 0 g)) with (acc := init)
        as (mi_matrix & -> & Hsquare)
  end.
  - intros m i Hi Hm.
    apply foldM_invariant; [|exact Hm].
    intros m' j Hj Hm'.
    destruct (decide (i ≠ j)); [|now exists m'].
    destruct (Hrow i Hi) as (gi & Hgi & Hleni).
    destruct (Hrow j Hj) as (gj & Hgj & Hlenj).
    unfold getitem. rewrite Hgi, Hgj. cbn.
    destruct (mutual_information_total gi gj) as [v ->]; [congruence|].
    cbn. apply elem_of_seq in Hi, Hj. apply setitem2_square; [exact Hm' | lia | lia].
  - split.
    + apply length_replicate.
    + apply Forall_replicate. apply length_replicate.
  - cbn. apply mapM_total. intros i Hi.
    apply elem_of_seq in Hi as [_ Hi]. destruct Hsquare as [Hlen _].
    destruct (lookup_lt_is_Some_2 mi_matrix i) as [row Hrow']; [lia|].
    unfold getitem. rewrite Hrow'. cbn. eauto.
Qed.

Lemma mapM_length {A B} (f : A -> result B) (l : list A) (bs : list B) :
  mapM f l = Ok bs -> length bs = length l.
Proof.
  revert bs. induction l as [|a l IH]; intros bs H.
  - inversion H. reflexivity.
  - cbn in H. destruct (f a) as [b|]; [|discriminate]. cbn in H.
    destruct (mapM f l) as [bs'|]; [|discriminate]. cbn in H.
    inversion H. simpl. f_equal. now apply IH.
Qed.

Lemma genes_mutual_information_length (genes : list (list Z)) (mi_vector : list R) :
  genes_mutual_information genes = Ok mi_vector ->
  length mi_vector = length genes.
Proof.
  unfold genes_mutual_information. intros H.
  match type of H with
  | (mbind _ ?loop) = _ => destruct loop as [mi_matrix|]; [|discriminate]
  end.
  cbn in H. apply mapM_length in H. now rewrite length_seq in H.
Qed.







(** On an instance that comes from the constructor the attribute read is
    the last step of every run that gets that far, so [_mim_filter] never
    returns, whatever it is given. *)
Lemma mim_filter_never_returns (mim_size pop_size max_iter : Z)
    (f_target k1 k2 k3 k4 : R) (genes : list (list Z)) :
  exists e,
    _mim_filter (__init__ mim_size pop_size max_iter f_target k1 k2 k3 k4) genes
    = Raise e.
Proof.
  unfold _mim_filter.
  destruct (genes_mutual_information genes) as [mi_vector|e]; cbn; eauto.
Qed.

(** C2 (what the code does).  On an instance that comes from the
    constructor, [_mim_filter] computes the ranking of the feature matrix
    and then raises [AttributeError], whatever the matrix and the
    configured sizes: it reads [self.mim_size], and the constructor assigned
    [self._mim_size].  The ranked, truncated index list is never returned. *)
Theorem mim_filter_after_init (mim_size pop_size max_iter : Z)
    (f_target k1 k2 k3 k4 : R) (genes : list (list Z)) :
  rectangular genes ->
  _mim_filter (__init__ mim_size pop_size max_iter f_target k1 k2 k3 k4) genes
  = Raise (AttributeError "mim_size").
Proof.
  intros Hrect. unfold _mim_filter.
  destruct (genes_mutual_information_total genes Hrect) as [mi_vector ->].
  reflexivity.
Qed.

(** The failing input of C2: [MIMAGA(1, 1, 0, ...)] and a 2 x 2 matrix. *)
Lemma mim_filter_after_init_witness :
  _mim_filter one_feature [[0; 1]; [1; 1]]%Z = Raise (AttributeError "mim_size").
Proof.
  apply mim_filter_after_init. exists 2. repeat constructor.
Defined.

(** ** Fitness of a population *)

Section Fitness.
Variable random_source : nat -> Z.
Variable clf_model : Type.
Variable clf_fit : list (list Z) -> list Z -> result clf_model.
Variable clf_predict : clf_model -> list (list Z) -> result (list Z).
Variable f1_score : list Z -> list Z -> result R.

Local Abbreviation score :=
  (score_individual clf_model clf_fit clf_predict f1_score).
Local Abbreviation fitness :=
  (population_fitness clf_model clf_fit clf_predict f1_score).

Variable mapping : dict nat nat.
Variable population : list nat.
Variables train test : list (list Z).
Variables train_cl test_cl : list Z.

(** An individual that decodes to no feature leaves the loop state and
    the machine state as they were. *)
Lemma score_individual_skip acc i s individual chromosome filtered_test :
  population !! i = Some individual ->
  heap s !! individual = Some chromosome ->
  decode_genes mapping chromosome train test = Ok ([], filtered_test) ->
  score mapping population train train_cl test test_cl acc i s
  = (Ok acc, s).
Proof.
  intros Hi Hc Hd. destruct acc as [code_fitness f_sum].
  unfold score_individual, mbind, M_bind, lift, deref, getitem.
  rewrite Hi, Hc, Hd. reflexivity.
Qed.

(** A round that returns either skipped the individual or fitted the
    classifier once and recorded one more fitness. *)
Lemma score_individual_Ok code_fitness f_sum i s code_fitness' f_sum' s' :
  score mapping population train train_cl test test_cl
        (code_fitness, f_sum) i s
  = (Ok (code_fitness', f_sum'), s') ->
  (code_fitness' = code_fitness /\ f_sum' = f_sum /\ fits s' = fits s) \/
  (exists individual f,
      code_fitness' = code_fitness ++ [(individual, f)] /\
      f_sum' = (f_sum + f)%R /\ fits s' = S (fits s)).
Proof.
  unfold score_individual, mbind, M_bind, lift, deref, fit_and_score.
  intros H.
  destruct (getitem population i) as [individual|]; [|discriminate].
  destruct (getitem (heap s) individual) as [chromosome|]; [|discriminate].
  destruct (decode_genes mapping chromosome train test)
    as [[filtered_train filtered_test]|]; [|discriminate].
  destruct (decide (length filtered_train = 0)).
  - left. inversion H. auto.
  - right. unfold mret, M_ret in H.
    match type of H with
    | (match ?r with _ => _ end) = _ => destruct r as [f|] eqn:Hf
    end; [|discriminate].
    inversion H. exists individual, f. auto.
Qed.

Lemma score_loop_skip idx acc s :
  Forall (fun i => exists individual chromosome filtered_test,
              population !! i = Some individual /\
              heap s !! individual = Some chromosome /\
              decode_genes mapping chromosome train test
              = Ok ([], filtered_test)) idx ->
  foldM (score mapping population train train_cl test test_cl)
        idx acc s
  = (Ok acc, s).
Proof.
  induction 1 as [|i idx (individual & chromosome & filtered_test & Hi & Hc & Hd) _ IH].
  - reflexivity.
  - rewrite foldM_cons. unfold mbind at 1, M_bind.
    rewrite (score_individual_skip _ _ _ _ _ _ Hi Hc Hd). exact IH.
Qed.

Lemma score_loop_Ok idx code_fitness f_sum s code_fitness' f_sum' s' :
  foldM (score mapping population train train_cl test test_cl)
        idx (code_fitness, f_sum) s
  = (Ok (code_fitness', f_sum'), s') ->
  exists computed,
    code_fitness' = code_fitness ++ computed /\
    f_sum' = (f_sum + py_sum (map snd computed))%R /\
    fits s' = fits s + length computed /\
    length computed <= length idx.
Proof.
  revert code_fitness f_sum s.
  induction idx as [|i idx IH]; intros code_fitness f_sum s H.
  - inversion H; subst. exists []. rewrite app_nil_r. cbn.
    unfold py_sum. cbn. split; [reflexivity|]. split; [lra | lia].
  - rewrite foldM_cons in H. unfold mbind at 1, M_bind in H.
    destruct (score mapping population train train_cl test test_cl
                    (code_fitness, f_sum) i s)
      as [[[code_fitness1 f_sum1]|e] s1] eqn:Hstep; [|discriminate].
    apply IH in H as (computed & -> & -> & Hfits & Hlen).
    apply score_individual_Ok in Hstep
      as [(-> & -> & Hf1) | (individual & f & -> & -> & Hf1)].
    + exists computed. rewrite Hfits, Hf1. simpl. auto with lia.
    + exists ((individual, f) :: computed). rewrite <- app_assoc.
      change (map snd ((individual, f) :: computed))
        with (f :: map snd computed).
      rewrite py_sum_cons, Hfits, Hf1. split; [reflexivity|].
      split; [lra | simpl; lia].
Qed.

(** C7.  If every individual of the population decodes to an empty
    feature set, [population_fitness] raises ([IndexError], from reading
    the first entry of an empty scored list); it does not return, so no
    maximum fitness, [0] or other, comes out. *)
Theorem population_fitness_all_empty (s : state) :
  Forall (fun individual => exists chromosome filtered_test,
              heap s !! individual = Some chromosome /\
              decode_genes mapping chromosome train test
              = Ok ([], filtered_test)) population ->
  fitness mapping population train train_cl test test_cl s
  = (Raise IndexError, s).
Proof.
  intros Hall. unfold population_fitness, mbind at 1, M_bind.
  rewrite score_loop_skip; [reflexivity|].
  apply Forall_forall. intros i Hi.
  apply elem_of_seq in Hi as [_ Hi]. simpl in Hi.
  destruct (lookup_lt_is_Some_2 population i Hi) as [individual Hind].
  rewrite Forall_forall in Hall.
  destruct (Hall individual) as (chromosome & filtered_test & Hc & Hd).
  { now apply list_elem_of_lookup_2 with i. }
  now exists individual, chromosome, filtered_test.
Qed.

(** C6 (as amended).  When [population_fitness] returns, the scored list
    holds one entry per classifier fit, and the reported average is the
    sum of these computed fitnesses divided by the size of the whole
    population: individuals skipped for decoding to no feature are left
    out of the sum but are counted in the denominator. *)
Theorem population_fitness_average (s s' : state)
    (code_fitness : list (nat * R)) (f_max f_avg : R) :
  fitness mapping population train train_cl test test_cl s
  = (Ok (code_fitness, f_max, f_avg), s') ->
  fits s' = fits s + length code_fitness /\
  length code_fitness <= length population /\
  f_avg = (py_sum (map snd code_fitness) / INR (length population))%R.
Proof.
  unfold population_fitness, mbind at 1, M_bind. intros H.
  match type of H with
  | (match ?loop with _ => _ end) = _ =>
      destruct loop as [[[scored f_sum]|e] s1] eqn:Hloop; [|discriminate]
  end.
  unfold mbind, M_bind, lift in H.
  destruct (getitem (sort_by (fun p q => Rltb q.2 p.2) scored) 0)
    as [top|]; [|discriminate].
  destruct (decide (length population = 0)); [discriminate|].
  inversion H; subst; clear H.
  apply score_loop_Ok in Hloop as (computed & Hscored & Hsum & Hfits & Hlen).
  simpl in Hscored. subst scored f_sum.
  pose proof (sort_by_Permutation (fun p q : nat * R => Rltb q.2 p.2) computed)
    as Hperm.
  rewrite (Permutation_length Hperm).
  rewrite (py_sum_Permutation _ _ (Permutation_map snd Hperm)).
  rewrite length_seq in Hlen.
  split; [exact Hfits|]. split; [exact Hlen|].
  unfold Rdiv. ring.
Qed.
End Fitness.

Lemma population_fitness_one_and_zero :
  population_fitness unit always_fit predict_nothing score_one
                     [(0, 0)] [0; 1] [[5]]%Z [0]%Z [[7]]%Z [1]%Z one_and_zero
  = (Ok ([(0, 1%R)], 1%R, ((0 + 1) / INR 2)%R),
     {| heap := [[1]; [0]]%Z; draws := 0; fits := 1 |}).
Proof. reflexivity. Qed.

Lemma population_fitness_all_empty_witness :
  population_fitness unit always_fit predict_nothing score_one
                     [(0, 0); (1, 1)] [0; 1] [[5]; [6]]%Z [0]%Z [[7]; [8]]%Z [1]%Z
                     all_zero
  = (Raise IndexError, all_zero).
Proof.
  apply population_fitness_all_empty.
  repeat constructor.
  - exists [0; 0]%Z, []. split; reflexivity.
  - exists [0]%Z, []. split; reflexivity.
Defined.

Lemma population_fitness_average_witness :
  fits {| heap := [[1]; [0]]%Z; draws := 0; fits := 1 |}
  = fits one_and_zero + length [(0, 1%R)] /\
  length [(0, 1%R)] <= length [0; 1] /\
  ((0 + 1) / INR 2)%R
  = (py_sum (map snd [(0, 1%R)]) / INR (length [0; 1]))%R.
Proof.
  exact (population_fitness_average unit always_fit predict_nothing score_one
           [(0, 0)] [0; 1] [[5]]%Z [[7]]%Z [0]%Z [1]%Z
           one_and_zero _ _ 1%R _ population_fitness_one_and_zero).
Defined.

(** C6 fails as stated: the first individual decodes to one feature and
    gets fitness [1], the second decodes to none and is skipped; the
    reported average is [1/2], not the mean [1] of the computed fitnesses. *)
Lemma population_fitness_average_is_not_mean_of_computed :
  exists code_fitness f_max f_avg s',
    population_fitness unit always_fit predict_nothing score_one
                       [(0, 0)] [0; 1] [[5]]%Z [0]%Z [[7]]%Z [1]%Z one_and_zero
    = (Ok (code_fitness, f_max, f_avg), s') /\
    decode_genes [(0, 0)] [1]%Z [[5]]%Z [[7]]%Z = Ok ([[5]]%Z, [[7]]%Z) /\
    f_avg <> (py_sum (map snd code_fitness) / INR (length code_fitness))%R.
Proof.
  eexists _, _, _, _. split; [apply population_fitness_one_and_zero|].
  split; [reflexivity|].
  unfold py_sum. simpl. lra.
Qed.

(** ** Adaptive probabilities *)

Section AdaptiveProbability.
Variable self : MIMAGA.
Variables fmax favg fref : R.

Lemma crossover_probability_high :
  (fref >= favg)%R -> fmax <> favg ->
  _crossover_probability self fmax favg fref
  = (_k1 self * (fmax - fref) / (fmax - favg))%R.
Proof.
  intros Hge Hne. unfold _crossover_probability.
  destruct (Rge_dec fref favg); [|contradiction].
  destruct (Req_dec_T fmax favg); [contradiction|].
  unfold Rdiv. ring.
Qed.

Lemma mutation_probability_high :
  (fref >= favg)%R -> fmax <> favg ->
  _mutation_probability self fmax favg fref
  = (_k3 self * (fmax - fref) / (fmax - favg))%R.
Proof.
  intros Hge Hne. unfold _mutation_probability.
  destruct (Rge_dec fref favg); [|contradiction].
  destruct (Req_dec_T fmax favg); [contradiction|].
  unfold Rdiv. ring.
Qed.

Lemma probability_converged :
  (fref >= favg)%R -> fmax = favg ->
  _crossover_probability self fmax favg fref = 1%R /\
  _mutation_probability self fmax favg fref = 1%R.
Proof.
  intros Hge Heq. unfold _crossover_probability, _mutation_probability.
  destruct (Rge_dec fref favg); [|contradiction].
  destruct (Req_dec_T fmax favg); [|contradiction].
  split; reflexivity.
Qed.

Lemma probability_low :
  (fref < favg)%R ->
  _crossover_probability self fmax favg fref = _k2 self /\
  _mutation_probability self fmax favg fref = _k4 self.
Proof.
  intros Hlt. unfold _crossover_probability, _mutation_probability.
  destruct (Rge_dec fref favg); [lra|].
  split; reflexivity.
Qed.
End AdaptiveProbability.

(** C8.  With [base_high = k1], [base_low = k2] for crossover and
    [base_high = k3], [base_low = k4] for mutation, the adaptive probability
    is [base_high * (fmax - fref) / (fmax - favg)] when [fref >= favg] and
    [fmax <> favg]; it is exactly [1] when [fref >= favg] and [fmax = favg];
    and it is exactly [base_low] when [fref < favg]. *)
Theorem adaptive_probability_cases (self : MIMAGA) (fmax favg fref : R) :
  ((fref >= favg)%R -> fmax <> favg ->
     _crossover_probability self fmax favg fref
       = (_k1 self * (fmax - fref) / (fmax - favg))%R /\
     _mutation_probability self fmax favg fref
       = (_k3 self * (fmax - fref) / (fmax - favg))%R) /\
  ((fref >= favg)%R -> fmax = favg ->
     _crossover_probability self fmax favg fref = 1%R /\
     _mutation_probability self fmax favg fref = 1%R) /\
  ((fref < favg)%R ->
     _crossover_probability self fmax favg fref = _k2 self /\
     _mutation_probability self fmax favg fref = _k4 self).
Proof.
  split; [|split].
  - intros Hge Hne. split.
    + now apply crossover_probability_high.
    + now apply mutation_probability_high.
  - apply probability_converged.
  - apply probability_low.
Qed.

Lemma adaptive_probability_cases_witness :
  (_crossover_probability example_mimaga 1 (1 / 2) (3 / 4)
     = (6 / 10 * (1 - 3 / 4) / (1 - 1 / 2))%R /\
   _mutation_probability example_mimaga 1 (1 / 2) (3 / 4)
     = (9 / 10 * (1 - 3 / 4) / (1 - 1 / 2))%R) /\
  (_crossover_probability example_mimaga 1 1 1 = 1%R /\
   _mutation_probability example_mimaga 1 1 1 = 1%R) /\
  (_crossover_probability example_mimaga 1 (1 / 2) 0 = (3 / 10)%R /\
   _mutation_probability example_mimaga 1 (1 / 2) 0 = (1 / 1000)%R).
Proof.
  split; [|split].
  - apply (proj1 (adaptive_probability_cases example_mimaga 1 (1 / 2) (3 / 4))); lra.
  - apply (proj1 (proj2 (adaptive_probability_cases example_mimaga 1 1 1))); lra.
  - apply (proj2 (proj2 (adaptive_probability_cases example_mimaga 1 (1 / 2) 0))); lra.
Defined.

(** ** Mutation and the shared chromosomes *)

Section Mutation.
Variable random_source : nat -> Z.

Local Abbreviation mutate := (mutation random_source).

(** [mutation] writes the flipped bit into the list object it was given
    and returns the address of that same object: no copy is made. *)
Lemma mutation_in_place (x : nat) (s : state) (xs : list Z) :
  heap s !! x = Some xs ->
  xs <> [] ->
  exists (p : nat) (bit : Z),
    p = Z.to_nat (random_source (draws s) mod Z.of_nat (length xs)) /\
    xs !! p = Some bit /\
    mutate x s
    = (Ok x, {| heap := <[x := <[p := ((bit - 1) mod 2)%Z]> xs]> (heap s);
                draws := S (draws s); fits := fits s |}).
Proof.
  intros Hx Hne.
  assert (0 < length xs) as Hlen by (destruct xs; [contradiction | simpl; lia]).
  set (p := Z.to_nat (random_source (draws s) mod Z.of_nat (length xs))).
  assert (p < length xs) as Hp.
  { subst p.
    pose proof (Z.mod_pos_bound (random_source (draws s)) (Z.of_nat (length xs))).
    lia. }
  destruct (lookup_lt_is_Some_2 xs p Hp) as [bit Hbit].
  exists p, bit. split; [reflexivity|]. split; [exact Hbit|].
  unfold mutation, mbind, M_bind, deref, randint, lift, store, getitem.
  rewrite Hx. cbn [heap draws fits].
  destruct (decide (Z.of_nat (length xs) - 1 < 0)%Z); [lia|].
  replace (Z.of_nat (length xs) - 1 - 0 + 1)%Z with (Z.of_nat (length xs)) by lia.
  rewrite Z.add_0_l. fold p. rewrite Hbit. reflexivity.
Qed.
End Mutation.

(** C4 (what the code does at a concrete input).  [mutation] returns the
    address it was given, and the list stored there has changed from
    [[0; 1]] to [[1; 1]]; called from [cross_and_mutate] on a one-parent
    population, the "mutant" appended to the new population is the parent
    itself, whose stored mask is overwritten. *)
Theorem mutation_overwrites_parent :
  mutation (fun _ => 0%Z) 0 single_parent
  = (Ok 0, {| heap := [[1; 1]%Z]; draws := 1; fits := 0 |}) /\
  cross_and_mutate (fun _ => 0%Z) 0%R 1%R [(0, 1%R)] single_parent
  = (Ok ([0; 0], 0%R), {| heap := [[1; 1]%Z]; draws := 2; fits := 0 |}).
Proof.
  split; [reflexivity|].
  unfold cross_and_mutate.
  rewrite (py_int_eq (0 * INR (length [(0, 1%R)])) 0) by (simpl; lra).
  rewrite (py_int_eq (1 * INR (length [(0, 1%R)])) 1) by (simpl; lra).
  reflexivity.
Qed.

(** ** The initial population *)

Lemma list_ascii_of_string_append (a b : string) :
  list_ascii_of_string (String.append a b)
  = list_ascii_of_string a ++ list_ascii_of_string b.
Proof. induction a as [|c a IH]; simpl; [reflexivity | now rewrite IH]. Qed.

Lemma substring_all (s : string) : String.substring 0 (String.length s) s = s.
Proof. induction s as [|c s IH]; simpl; [reflexivity | now rewrite IH]. Qed.

Lemma str_from_bin (p : positive) : str_from 2 (bin (Zpos p)) = bin_digits p.
Proof.
  unfold str_from, bin. simpl.
  rewrite Nat.sub_0_r. apply substring_all.
Qed.

Lemma bin_digits_head (p : positive) : exists t, bin_digits p = String "1" t.
Proof.
  induction p as [p [t IH]|p [t IH]|]; simpl.
  - rewrite IH. now eexists.
  - rewrite IH. now eexists.
  - now eexists.
Qed.

Lemma zfill_bin_digits (p : positive) (m : Z) :
  zfill (bin_digits p) m
  = String.append (zeros (Z.to_nat m - String.length (bin_digits p))) (bin_digits p).
Proof.
  unfold zfill. destruct (bin_digits_head p) as [t Ht]. rewrite Ht.
  rewrite decide_False; [reflexivity|].
  intros [H|H]; discriminate H.
Qed.

Lemma digits_of_zeros (k : nat) :
  mapM int_of_char (list_ascii_of_string (zeros k)) = Ok (replicate k 0%Z).
Proof.
  induction k as [|k IH]; [reflexivity|].
  simpl zeros. simpl list_ascii_of_string. cbn. cbn in IH. rewrite IH. reflexivity.
Qed.

Lemma digits_of_bin (p : positive) :
  mapM int_of_char (list_ascii_of_string (bin_digits p)) = Ok (bits p).
Proof.
  induction p as [p IH|p IH|]; simpl bin_digits; simpl bits;
    [| |reflexivity];
    rewrite list_ascii_of_string_append; apply mapM_app; try exact IH; reflexivity.
Qed.

Lemma length_bin_digits (p : positive) :
  String.length (bin_digits p) = length (bits p).
Proof.
  assert (forall a b, String.length (String.append a b)
                      = String.length a + String.length b) as Happ.
  { intros a b. induction a as [|c a IH]; simpl; [reflexivity | now rewrite IH]. }
  induction p as [p IH|p IH|]; simpl; [| |reflexivity];
    rewrite Happ, length_app, IH; reflexivity.
Qed.

(** The chromosome of a positive number: its binary digits, padded with
    zeros on the left up to [m] digits and never shortened. *)
Lemma code_of_pos (p : positive) (m : Z) :
  code_of (Zpos p) m = Ok (replicate (Z.to_nat m - length (bits p)) 0%Z ++ bits p).
Proof.
  unfold code_of. rewrite str_from_bin, zfill_bin_digits.
  rewrite list_ascii_of_string_append, length_bin_digits.
  apply mapM_app; [apply digits_of_zeros | apply digits_of_bin].
Qed.

Lemma bits_head (p : positive) : exists t, bits p = 1%Z :: t.
Proof.
  induction p as [p [t IH]|p [t IH]|]; simpl; try rewrite IH; now eexists.
Qed.

Lemma length_bits_bound (p : positive) : forall m : nat,
  (Zpos p < 2 ^ Z.of_nat m)%Z <-> length (bits p) <= m.
Proof.
  induction p as [p IH|p IH|]; intros m; simpl bits; rewrite ?length_app; simpl length.
  - destruct m as [|m].
    + simpl. split; lia.
    + rewrite Nat2Z.inj_succ, Z.pow_succ_r by lia. specialize (IH m). split; lia.
  - destruct m as [|m].
    + simpl. split; lia.
    + rewrite Nat2Z.inj_succ, Z.pow_succ_r by lia. specialize (IH m). split; lia.
  - destruct m as [|m].
    + simpl. split; lia.
    + rewrite Nat2Z.inj_succ, Z.pow_succ_r by lia.
      pose proof (Z.pow_pos_nonneg 2 (Z.of_nat m)). split; lia.
Qed.

Section InitialPopulation.
Variable random_source : nat -> Z.
Variable self : MIMAGA.
Hypothesis reduced_size_positive : (1 <= _mim_size self)%Z.

(** The drawn number lies in [1 .. 2 ** _mim_size], upper end included. *)
Lemma drawn_number_range (s : state) :
  exists p : positive,
    (Zpos p <= 2 ^ _mim_size self)%Z /\
    (upper ← lift (py_lshift 2 (_mim_size self - 1)); randint random_source 1 upper) s
    = (Ok (Zpos p),
       {| heap := heap s; draws := S (draws s); fits := fits s |}).
Proof.
  unfold mbind, M_bind, lift, py_lshift, randint.
  rewrite decide_False by lia.
  assert (Z.shiftl 2 (_mim_size self - 1) = 2 ^ _mim_size self)%Z as ->.
  { rewrite Z.shiftl_mul_pow2 by lia.
    rewrite <- Z.pow_succ_r by lia. f_equal. lia. }
  pose proof (Z.pow_pos_nonneg 2 (_mim_size self)) as Hpow.
  rewrite decide_False by lia.
  replace (2 ^ _mim_size self - 1 + 1)%Z with (2 ^ _mim_size self)%Z by lia.
  pose proof (Z.mod_pos_bound (random_source (draws s)) (2 ^ _mim_size self)) as Hmod.
  destruct (1 + random_source (draws s) mod 2 ^ _mim_size self)%Z as [|p|p] eqn:Hn;
    [lia | | lia].
  exists p. split; [lia | reflexivity].
Qed.

(** A chromosome of the initial population: it has a 1-bit, and its
    length is [_mim_size] or one more. *)
Definition initial_mask (code : list Z) : Prop :=
  1%Z ∈ code /\
  (length code = Z.to_nat (_mim_size self) \/
   length code = S (Z.to_nat (_mim_size self))).

Lemma code_of_drawn (p : positive) :
  (Zpos p <= 2 ^ _mim_size self)%Z ->
  exists code, code_of (Zpos p) (_mim_size self) = Ok code /\ initial_mask code.
Proof.
  intros Hp. eexists. split; [apply code_of_pos|]. split.
  - destruct (bits_head p) as [t ->]. apply elem_of_app. right. now left.
  - rewrite length_app, length_replicate.
    assert (length (bits p) <= S (Z.to_nat (_mim_size self))) as Hlen.
    { apply length_bits_bound. rewrite Nat2Z.inj_succ, Z2Nat.id by lia.
      rewrite Z.pow_succ_r by lia.
      pose proof (Z.pow_pos_nonneg 2 (_mim_size self)). lia. }
    lia.
Qed.

(** The length is [_mim_size] for every drawn number but the upper end
    [2 ** _mim_size], where it is one more. *)
Lemma code_of_length (p : positive) (code : list Z) :
  (Zpos p <= 2 ^ _mim_size self)%Z ->
  code_of (Zpos p) (_mim_size self) = Ok code ->
  length code
  = if decide (Zpos p = 2 ^ _mim_size self)%Z
    then S (Z.to_nat (_mim_size self)) else Z.to_nat (_mim_size self).
Proof.
  intros Hp Hcode. rewrite code_of_pos in Hcode. inversion Hcode; subst; clear Hcode.
  rewrite length_app, length_replicate.
  pose proof (length_bits_bound p (Z.to_nat (_mim_size self))) as Hlow.
  pose proof (length_bits_bound p (S (Z.to_nat (_mim_size self)))) as Hhigh.
  rewrite Nat2Z.inj_succ, Z.pow_succ_r in Hhigh by lia.
  rewrite Z2Nat.id in Hlow, Hhigh by lia.
  pose proof (Z.pow_pos_nonneg 2 (_mim_size self)).
  destruct (decide (Zpos p = 2 ^ _mim_size self)%Z); lia.
Qed.

(** [_initial_population] returns [_pop_size] chromosomes, all of them new
    list objects, and each one an [initial_mask]. *)
Lemma initial_population_shape (s : state) :
  exists codes : list (list Z),
    _initial_population random_source self s
    = (Ok (seq (length (heap s)) (length codes)),
       {| heap := heap s ++ codes; draws := draws s + length codes;
          fits := fits s |}) /\
    length codes = Z.to_nat (_pop_size self) /\
    Forall initial_mask codes.
Proof.
  unfold _initial_population.
  match goal with
  | |- context [foldM ?f ?l ?init s] =>
      destruct (foldM_counted
                  (fun k population s' =>
                     exists codes,
                       population = seq (length (heap s)) (length codes) /\
                       s' = {| heap := heap s ++ codes;
                               draws := draws s + length codes;
                               fits := fits s |} /\
                       length codes = k /\ Forall initial_mask codes)
                  f l) with (k := 0) (acc := init) (s := s)
        as (population & s' & Hloop & codes & -> & -> & Hlen & Hmasks)
  end.
  - intros k population _ s1 (codes & -> & -> & Hlen & Hmasks).
    set (s1 := {| heap := heap s ++ codes; draws := draws s + length codes;
                  fits := fits s |}).
    destruct (drawn_number_range s1) as (p & Hp & Hdraw).
    destruct (code_of_drawn p Hp) as (code & Hcode & Hmask).
    exists (seq (length (heap s)) (length (codes ++ [code]))),
           {| heap := heap s ++ (codes ++ [code]);
              draws := draws s + length (codes ++ [code]); fits := fits s |}.
    split; [|exists (codes ++ [code])].
    + unfold mbind, M_bind in Hdraw |- *.
      destruct (lift (py_lshift 2 (_mim_size self - 1)) s1) as [[upper|] s2];
        [|discriminate].
      rewrite Hdraw. unfold lift at 1.
      change (mapM int_of_char _) with (code_of (Z.pos p) (_mim_size self)).
      rewrite Hcode. unfold alloc, mret, M_ret. subst s1. cbn [heap draws fits].
      rewrite !length_app, seq_app, app_assoc. simpl.
      do 2 f_equal. lia.
    + split; [reflexivity|]. split; [reflexivity|].
      split; [rewrite length_app; simpl; lia|].
      apply Forall_app. split; [exact Hmasks | now constructor].
  - exists []. simpl. rewrite app_nil_r, Nat.add_0_r.
    split; [reflexivity|]. split; [now destruct s|]. split; [reflexivity | constructor].
  - exists codes. split; [exact Hloop|].
    split; [|exact Hmasks]. rewrite Hlen, length_seq. reflexivity.
Qed.
End InitialPopulation.

(** C5 (what the code does at a concrete input).  With [_mim_size = 1] and
    [_pop_size = 1], [randint(1, 2 << 0)] may return [2]; the chromosome
    built from it is [[1; 0]], of length 2. *)
Theorem initial_population_mask_too_long :
  _initial_population (fun _ => 1%Z) one_feature empty_heap
  = (Ok [0], {| heap := [[1; 0]%Z]; draws := 1; fits := 0 |}) /\
  Z.of_nat (length [1; 0]%Z) <> _mim_size one_feature.
Proof. split; [reflexivity | discriminate]. Qed.

(** ** The search loop *)

Section SearchProperties.
Variable random_source : nat -> Z.
Variable clf_model : Type.
Variable clf_fit : list (list Z) -> list Z -> result clf_model.
Variable clf_predict : clf_model -> list (list Z) -> result (list Z).
Variable f1_score : list Z -> list Z -> result R.

Local Abbreviation loop :=
  (aga_loop random_source clf_model clf_fit clf_predict f1_score).
Local Abbreviation aga_filter :=
  (_aga_filter random_source clf_model clf_fit clf_predict f1_score).

(** When the loop condition is false the loop returns what it was given. *)
Lemma aga_loop_exit fuel self max_size mapping train train_cl test test_cl
    population f_par f_max counter best_individual :
  bool_decide (counter < _max_iter self)%Z && Rltb f_max (_f_target self) = false ->
  loop fuel self max_size mapping train train_cl test test_cl
       population f_par f_max counter best_individual
  = mret (best_individual, f_max).
Proof.
  intros Hcond. destruct fuel; simpl; rewrite Hcond; reflexivity.
Qed.

Lemma loop_condition_initially_false self :
  (_max_iter self = 0%Z \/ (_f_target self <= 0)%R) ->
  bool_decide (0 < _max_iter self)%Z && Rltb 0 (_f_target self) = false.
Proof.
  intros [Hiter | Htarget].
  - rewrite Hiter. reflexivity.
  - apply andb_false_iff. right. unfold Rltb.
    destruct (Rlt_dec 0 (_f_target self)); [lra | reflexivity].
Qed.

Lemma M_bind_ext {A B} (f g : A -> M B) (m : M A) (s : state) :
  (forall a s1, f a s1 = g a s1) -> (a ← m; f a) s = (a ← m; g a) s.
Proof.
  intros Hfg. unfold mbind, M_bind.
  destruct (m s) as [[a|e] s1]; [apply Hfg | reflexivity].
Qed.

(** The loop never runs out of fuel: any two amounts of fuel that cover the
    iterations left give the same run. *)
Lemma aga_loop_fuel fuel1 : forall fuel2 self max_size mapping train train_cl
    test test_cl population f_par f_max counter best_individual s,
  Z.to_nat (_max_iter self - counter) <= fuel1 ->
  Z.to_nat (_max_iter self - counter) <= fuel2 ->
  loop fuel1 self max_size mapping train train_cl test test_cl
       population f_par f_max counter best_individual s
  = loop fuel2 self max_size mapping train train_cl test test_cl
         population f_par f_max counter best_individual s.
Proof.
  induction fuel1 as [|fuel1 IH]; intros fuel2 self max_size mapping train
    train_cl test test_cl population f_par f_max counter best_individual s H1 H2;
    destruct (bool_decide (counter < _max_iter self)%Z
              && Rltb f_max (_f_target self)) eqn:Hcond;
    try (rewrite !aga_loop_exit by exact Hcond; reflexivity);
    apply andb_true_iff in Hcond as Hlt; destruct Hlt as [Hlt _];
    apply bool_decide_eq_true in Hlt.
  - lia.
  - destruct fuel2 as [|fuel2]; [lia|].
    simpl. rewrite Hcond.
    apply M_bind_ext. intros [[code_fitness f_max'] f_avg] s1.
    destruct (decide (max_size < Z.of_nat (length code_fitness))%Z);
      apply M_bind_ext; intros top s2;
      apply M_bind_ext; intros [new_generation f_par'] s3;
      apply IH; lia.
Qed.

(** C10.  For a non-empty initial population, if [_max_iter = 0] or
    [_f_target <= 0] then [_aga_filter] fits no classifier and draws no
    random number; it returns fitness [0] with a newly built all-ones
    mask whose length is that of the first individual, and this mask is
    none of the supplied individuals. *)
Theorem aga_filter_without_iteration self max_size mapping population
    train train_cl test test_cl (s : state) (first : nat) (chromosome : list Z) :
  population !! 0 = Some first ->
  heap s !! first = Some chromosome ->
  (_max_iter self = 0%Z \/ (_f_target self <= 0)%R) ->
  let best := length (heap s) in
  let s' := {| heap := heap s ++ [replicate (length chromosome) 1%Z];
               draws := draws s; fits := fits s |} in
  aga_filter self max_size mapping population train train_cl test test_cl s
    = (Ok (best, 0%R), s') /\
  heap s' !! best = Some (replicate (length chromosome) 1%Z) /\
  fits s' = fits s /\
  (forall r, r ∈ population -> is_Some (heap s !! r) -> r <> best).
Proof.
  intros Hfirst Hchrom Hstop best s'. split; [|split; [|split]].
  - unfold _aga_filter, mbind, M_bind, lift, deref, alloc, getitem.
    rewrite Hfirst. cbn. rewrite Hchrom.
    rewrite aga_loop_exit by now apply loop_condition_initially_false.
    reflexivity.
  - subst best s'. cbn. rewrite lookup_app_r by lia.
    now rewrite Nat.sub_diag.
  - reflexivity.
  - intros r _ Hsome Heq. subst best.
    apply lookup_lt_is_Some in Hsome. lia.
Qed.
End SearchProperties.

Lemma aga_filter_without_iteration_witness :
  _aga_filter (fun _ => 0%Z) unit always_fit predict_nothing score_one
              no_iteration 2%Z [(0, 0); (1, 1)] [0] [[0; 1]; [1; 1]]%Z [0; 1]%Z
              [[1]; [0]]%Z [1]%Z single_parent
  = (Ok (1, 0%R), {| heap := [[0; 1]; [1; 1]]%Z; draws := 0; fits := 0 |}).
Proof.
  apply (aga_filter_without_iteration (fun _ => 0%Z) unit always_fit
           predict_nothing score_one no_iteration 2%Z [(0, 0); (1, 1)] [0]
           [[0; 1]; [1; 1]]%Z [0; 1]%Z [[1]; [0]]%Z [1]%Z single_parent
           0 [0; 1]%Z).
  - reflexivity.
  - reflexivity.
  - left. reflexivity.
Defined.

(** ** The value returned by the orchestrator *)

Section Orchestrator.
Variable random_source : nat -> Z.
Variable clf_model : Type.
Variable clf_fit : list (list Z) -> list Z -> result clf_model.
Variable clf_predict : clf_model -> list (list Z) -> result (list Z).
Variable f1_score : list Z -> list Z -> result R.
Variable train_test_split :
  list (list Z) -> list Z ->
  result (list (list Z) * list (list Z) * list Z * list Z).

Local Abbreviation initial_population := (_initial_population random_source).
Local Abbreviation aga_filter :=
  (_aga_filter random_source clf_model clf_fit clf_predict f1_score).
Local Abbreviation run :=
  (mimaga_filter random_source clf_model clf_fit clf_predict f1_score
                 train_test_split).

(** C3 (as amended).  Whenever [mimaga_filter] returns, the matrix it
    returns is the train component of decoding the winning mask: the
    selected rows of the train matrix.  The selected rows of the test
    matrix are decoded as well and dropped.  The fitness returned is the
    one reported by the search. *)
Theorem mimaga_filter_returns_train_rows (self : MIMAGA)
    (genes : list (list Z)) (classes : list Z) (s s' : state)
    (result_genes : list (list Z)) (max_fitness : R) :
  run self genes classes s = (Ok (result_genes, max_fitness), s') ->
  exists train_set test_set train_classes test_classes filtered_indexes
         first_population s1 best chromosome filtered_test,
    train_test_split (transpose genes) classes
    = Ok (train_set, test_set, train_classes, test_classes) /\
    _mim_filter self (transpose train_set) = Ok filtered_indexes /\
    initial_population self s = (Ok first_population, s1) /\
    let index_map :=
      dict_of_pairs (zip (seq 0 (Z.to_nat (_mim_size self))) filtered_indexes) in
    aga_filter self (_pop_size self * 2)%Z index_map first_population
               (transpose train_set) train_classes
               (transpose test_set) test_classes s1
    = (Ok (best, max_fitness), s') /\
    heap s' !! best = Some chromosome /\
    decode_genes index_map chromosome (transpose train_set) (transpose test_set)
    = Ok (result_genes, filtered_test).
Proof.
  unfold mimaga_filter, mbind, M_bind, lift, deref, getitem. intros H.
  destruct (train_test_split (transpose genes) classes)
    as [[[[train_set test_set] train_classes] test_classes]|] eqn:Hsplit;
    [|discriminate].
  destruct (_mim_filter self (transpose train_set))
    as [filtered_indexes|] eqn:Hmim; [|discriminate].
  destruct (initial_population self s)
    as [[first_population|] s1] eqn:Hpop; [|discriminate].
  match type of H with
  | (match ?search with _ => _ end) = _ =>
      destruct search as [[[best fitness]|] s2] eqn:Hsearch; [|discriminate]
  end.
  destruct (heap s2 !! best) as [chromosome|] eqn:Hbest; [|discriminate].
  match type of H with
  | (match ?decoded with _ => _ end) = _ =>
      destruct decoded as [[decoded_train decoded_test]|] eqn:Hdec; [|discriminate]
  end.
  inversion H; subst; clear H.
  exists train_set, test_set, train_classes, test_classes, filtered_indexes,
         first_population, s1, best, chromosome, decoded_test.
  split; [reflexivity|]. split; [exact Hmim|]. split; [reflexivity|].
  cbv zeta. split; [exact Hsearch|]. split; [exact Hbest|exact Hdec].
Qed.
(** With the MIM stage failing on every instance that comes from the
    constructor, so does the orchestrator. *)
Lemma mimaga_filter_never_returns (mim_size pop_size max_iter : Z)
    (f_target k1 k2 k3 k4 : R) (genes : list (list Z)) (classes : list Z)
    (s : state) :
  exists e,
    run (__init__ mim_size pop_size max_iter f_target k1 k2 k3 k4) genes classes s
    = (Raise e, s).
Proof.
  unfold mimaga_filter, mbind, M_bind, lift.
  destruct (train_test_split (transpose genes) classes)
    as [[[[train_set test_set] train_classes] test_classes]|e]; [|eauto].
  destruct (mim_filter_never_returns mim_size pop_size max_iter f_target
              k1 k2 k3 k4 (transpose train_set)) as [e ->].
  eauto.
Qed.
End Orchestrator.

Lemma mimaga_filter_one_feature :
  mimaga_filter (fun _ => 0%Z) unit always_fit predict_nothing score_one
                split_first patched_mimaga [[5; 7]]%Z [0; 1]%Z empty_heap
  = (Ok ([[5]]%Z, 0%R), {| heap := [[1]; [1]]%Z; draws := 1; fits := 0 |}).
Proof. reflexivity. Qed.

Lemma mimaga_filter_returns_train_rows_witness :
  exists train_set test_set train_classes test_classes filtered_indexes
         first_population s1 best chromosome filtered_test,
    split_first (transpose [[5; 7]]%Z) [0; 1]%Z
    = Ok (train_set, test_set, train_classes, test_classes) /\
    _mim_filter patched_mimaga (transpose train_set) = Ok filtered_indexes /\
    _initial_population (fun _ => 0%Z) patched_mimaga empty_heap
    = (Ok first_population, s1) /\
    let index_map :=
      dict_of_pairs (zip (seq 0 (Z.to_nat (_mim_size patched_mimaga)))
                         filtered_indexes) in
    _aga_filter (fun _ => 0%Z) unit always_fit predict_nothing score_one
                patched_mimaga (_pop_size patched_mimaga * 2)%Z index_map
                first_population (transpose train_set) train_classes
                (transpose test_set) test_classes s1
    = (Ok (best, 0%R), {| heap := [[1]; [1]]%Z; draws := 1; fits := 0 |}) /\
    heap {| heap := [[1]; [1]]%Z; draws := 1; fits := 0 |} !! best
    = Some chromosome /\
    decode_genes index_map chromosome (transpose train_set) (transpose test_set)
    = Ok ([[5]]%Z, filtered_test).
Proof.
  exact (mimaga_filter_returns_train_rows (fun _ => 0%Z) unit always_fit
           predict_nothing score_one split_first patched_mimaga
           [[5; 7]]%Z [0; 1]%Z empty_heap _ _ _ mimaga_filter_one_feature).
Defined.

(** C3 fails as stated: on one feature with samples [5] (train) and [7]
    (test) the winning mask selects the feature, its decoding is
    [([[5]], [[7]])], and the orchestrator returns [[[5]]] alone, which is
    neither the train rows followed by the test rows nor the rows joined
    sample-wise. *)
Lemma mimaga_filter_drops_test_rows :
  exists s',
    mimaga_filter (fun _ => 0%Z) unit always_fit predict_nothing score_one
                  split_first patched_mimaga [[5; 7]]%Z [0; 1]%Z empty_heap
    = (Ok ([[5]]%Z, 0%R), s') /\
    decode_genes [(0, 0)] [1]%Z [[5]]%Z [[7]]%Z = Ok ([[5]]%Z, [[7]]%Z) /\
    [[5]]%Z <> [[5]]%Z ++ [[7]]%Z /\
    [[5]]%Z <> zip_with app [[5]]%Z [[7]]%Z.
Proof.
  eexists. split; [apply mimaga_filter_one_feature|].
  split; [reflexivity|]. split; discriminate.
Qed.

(** * Further properties of the program *)

(** ** Entropy *)

Lemma occurrences_le_length (k : Z) (l : list Z) :
  (occurrences k l <= Z.of_nat (length l))%Z.
Proof.
  induction l as [|a l IH].
  - reflexivity.
  - rewrite occurrences_cons. simpl length. destruct (decide (a = k)); lia.
Qed.

Lemma occurrences_all (k : Z) (l : list Z) :
  occurrences k l = Z.of_nat (length l) <-> (forall a, a ∈ l -> a = k).
Proof.
  induction l as [|a l IH].
  - split; [intros _ a Ha; inversion Ha | reflexivity].
  - rewrite occurrences_cons. simpl length.
    pose proof (occurrences_le_length k l) as Hle.
    destruct (decide (a = k)) as [->|Hne]; split.
    + intros H b Hb. apply elem_of_cons in Hb as [->|Hb]; [reflexivity|].
      apply IH; [lia | exact Hb].
    + intros H. assert (occurrences k l = Z.of_nat (length l)) as ->; [|lia].
      apply IH. intros b Hb. apply H. now right.
    + lia.
    + intros H. exfalso. apply Hne, H. now left.
Qed.

Lemma plogp_nonpos (q : R) : (0 < q <= 1)%R -> (q * ln q <= 0)%R.
Proof.
  intros [Hpos Hle]. destruct (Req_dec_T q 1) as [->|Hne].
  - rewrite ln_1. lra.
  - assert (ln q < 0)%R by (rewrite <- ln_1; apply ln_increasing; lra). nra.
Qed.

Lemma plogp_zero (q : R) : (0 < q <= 1)%R -> (q * ln q)%R = 0%R -> q = 1%R.
Proof.
  intros [Hpos Hle] Hzero. destruct (Req_dec_T q 1) as [->|Hne]; [reflexivity|].
  assert (ln q < 0)%R by (rewrite <- ln_1; apply ln_increasing; lra). nra.
Qed.

Lemma py_sum_plogp (qs : list R) :
  Forall (fun q => 0 < q <= 1)%R qs ->
  (py_sum (map (fun q => q * ln q) qs) <= 0)%R /\
  (py_sum (map (fun q => q * ln q)%R qs) = 0%R -> Forall (fun q => q = 1%R) qs).
Proof.
  induction 1 as [|q qs Hq _ [IHle IHzero]].
  - split; [unfold py_sum; simpl; lra | constructor].
  - change (map ?f (q :: qs)) with (f q :: map f qs). rewrite py_sum_cons.
    pose proof (plogp_nonpos q Hq) as Hq'. split; [lra|].
    intros Hzero. constructor.
    + apply plogp_zero; [exact Hq | lra].
    + apply IHzero. lra.
Qed.

(** X1.  [marginal_entropy] never raises; its result is non-negative, and
    it is [0] exactly when all elements of the sequence are equal (the
    empty sequence included). *)
Theorem marginal_entropy_nonnegative (x : list Z) :
  exists h : R,
    marginal_entropy x = Ok h /\
    (0 <= h)%R /\
    (h = 0%R <-> forall a b, a ∈ x -> b ∈ x -> a = b).
Proof.
  set (p := fun xi : Z => (IZR (occurrences xi x) / IZR (Z.of_nat (length x)))%R).
  assert (forall xi, xi ∈ x -> (0 < p xi <= 1)%R) as Hp.
  { intros xi Hxi. unfold p.
    pose proof (occurrences_pos xi x Hxi) as Hocc.
    pose proof (occurrences_le_length xi x) as Hle.
    apply IZR_lt in Hocc. apply IZR_le in Hle.
    split; [apply Rdiv_lt_0_compat; lra|].
    assert (0 < / IZR (Z.of_nat (length x)))%R as Hinv
      by (apply Rinv_0_lt_compat; lra).
    assert (IZR (Z.of_nat (length x)) * / IZR (Z.of_nat (length x)) = 1)%R
      by (field; lra).
    unfold Rdiv. nra. }
  assert (Forall (fun q => 0 < q <= 1)%R (map p x)) as Hprobs.
  { apply Forall_forall. intros q Hq.
    apply list_elem_of_In, in_map_iff in Hq as (xi & <- & Hxi).
    apply Hp. now apply list_elem_of_In. }
  exists (neg_plogp (map p x)). split; [apply marginal_entropy_eq|].
  rewrite neg_plogp_positive
    by (eapply Forall_impl; [exact Hprobs | intros q Hq; apply Hq]).
  destruct (py_sum_plogp (map p x) Hprobs) as [Hle Hzero].
  split; [lra|]. split.
  - intros Hh a b Ha Hb.
    assert (Forall (fun q => q = 1%R) (map p x)) as Hone by (apply Hzero; lra).
    rewrite Forall_forall in Hone.
    assert (p a = 1%R) as Hpa.
    { apply Hone. apply list_elem_of_In, in_map_iff. exists a.
      split; [reflexivity | now apply list_elem_of_In]. }
    unfold p in Hpa.
    assert (0 < IZR (Z.of_nat (length x)))%R as Hlen.
    { apply IZR_lt. destruct x; [inversion Ha | simpl; lia]. }
    assert (IZR (occurrences a x) = IZR (Z.of_nat (length x))) as Heq.
    { apply (Rmult_eq_reg_r (/ IZR (Z.of_nat (length x)))).
      - unfold Rdiv in Hpa. rewrite Hpa. field. lra.
      - apply Rinv_neq_0_compat. lra. }
    apply eq_IZR in Heq. symmetry. now apply (occurrences_all a x).
  - intros Hsame.
    assert (py_sum (map (fun q => q * ln q)%R (map p x)) = 0%R) as ->; [|lra].
    rewrite map_map.
    assert (forall l, (forall xi, xi ∈ l -> p xi = 1%R) ->
                      py_sum (map (fun xi => p xi * ln (p xi))%R l) = 0%R) as Hsum.
    { induction l as [|xi l IH]; intros Hl.
      - reflexivity.
      - change (map ?f (xi :: l)) with (f xi :: map f l).
        rewrite py_sum_cons, IH by (intros c Hc; apply Hl; now right).
        rewrite (Hl xi) by (now left). rewrite ln_1. lra. }
    apply Hsum. intros xi Hxi. unfold p.
    assert (occurrences xi x = Z.of_nat (length x)) as ->.
    { apply occurrences_all. intros a Ha. now apply Hsame. }
    apply Rdiv_diag. apply not_0_IZR. destruct x; [inversion Hxi | simpl; lia].
Qed.

(** X2.  When [y] is shorter than [x], [conditional_entropy] raises
    [IndexError]: the counting loop runs over the positions of [x] and
    reads [y] past its end. *)
Theorem conditional_entropy_short_y (x y : list Z) :
  length y < length x -> conditional_entropy x y = Raise IndexError.
Proof.
  intros Hlen. unfold conditional_entropy.
  replace (length x) with (length y + S (length x - S (length y))) at 1 by lia.
  rewrite seq_app, foldM_app.
  destruct (count_pair_loop x y (length y)) as ([y_counter x_by_y_counter] & -> & _);
    [lia | lia |].
  cbn [mbind result_bind]. simpl seq. rewrite foldM_cons.
  destruct (lookup_lt_is_Some_2 x (length y)) as [xi Hxi]; [lia|].
  unfold count_pair, getitem.
  rewrite Hxi, (lookup_ge_None_2 y (length y)) by lia.
  reflexivity.
Qed.

Lemma conditional_entropy_short_y_witness :
  conditional_entropy [0; 1; 1]%Z [0; 1]%Z = Raise IndexError.
Proof. apply conditional_entropy_short_y. simpl. lia. Defined.

(** X3.  On two sequences of the same length neither entropy raises, and
    [mutual_information] returns the marginal entropy of the first minus
    its conditional entropy given the second. *)
Theorem mutual_information_equal_length (x y : list Z) :
  length x = length y ->
  exists hx hxy : R,
    marginal_entropy x = Ok hx /\
    conditional_entropy x y = Ok hxy /\
    mutual_information x y = Ok (hx - hxy)%R.
Proof.
  intros Hlen.
  destruct (conditional_entropy_total x y Hlen) as [hxy Hxy].
  eexists _, hxy. split; [apply marginal_entropy_eq|]. split; [exact Hxy|].
  unfold mutual_information. rewrite marginal_entropy_eq, Hxy. reflexivity.
Qed.

Lemma mutual_information_equal_length_witness :
  exists hx hxy : R,
    marginal_entropy [0; 1; 1]%Z = Ok hx /\
    conditional_entropy [0; 1; 1]%Z [1; 0; 0]%Z = Ok hxy /\
    mutual_information [0; 1; 1]%Z [1; 0; 0]%Z = Ok (hx - hxy)%R.
Proof. apply mutual_information_equal_length. reflexivity. Defined.

(** X4.  On a matrix whose rows all have the same length,
    [genes_mutual_information] does not raise and returns one score per
    row. *)
Theorem genes_mutual_information_scores (genes : list (list Z)) :
  rectangular genes ->
  exists mi_vector : list R,
    genes_mutual_information genes = Ok mi_vector /\
    length mi_vector = length genes.
Proof.
  intros Hrect.
  destruct (genes_mutual_information_total genes Hrect) as [mi_vector Hmi].
  exists mi_vector. split; [exact Hmi|].
  now apply genes_mutual_information_length.
Qed.

Lemma genes_mutual_information_scores_witness :
  exists mi_vector : list R,
    genes_mutual_information [[0; 1; 1]; [1; 0; 0]]%Z = Ok mi_vector /\
    length mi_vector = length [[0; 1; 1]; [1; 0; 0]]%Z.
Proof.
  apply genes_mutual_information_scores. exists 3. repeat constructor.
Defined.

(** ** Decoding a chromosome *)

(** The positions of a chromosome that hold a 1. *)
Definition set_bits (chromosome : list Z) : list nat :=
  filter (fun i => chromosome !! i = Some 1%Z) (seq 0 (length chromosome)).

(** The row that position [i] selects in a matrix: [m[mapping[i]]]. *)
Definition selected_row (mapping : dict nat nat) (m : list (list Z)) (i : nat)
    : option (list Z) :=
  j ← dict_lookup mapping i; m !! j.

Section Decode.
Variable mapping : dict nat nat.
Variable chromosome : list Z.
Variables train test : list (list Z).

(** The body of the loop of [decode_genes]. *)
Definition decode_step
    : list (list Z) * list (list Z) -> nat ->
      result (list (list Z) * list (list Z)) :=
  fun '(filtered_train, filtered_test) i =>
  bit ← getitem chromosome i;
  if decide (bit = 1%Z) then
    initial_index ← dict_get mapping i;
    tr ← getitem train initial_index;
    te ← getitem test initial_index;
    Ok (filtered_train ++ [tr], filtered_test ++ [te])
  else Ok (filtered_train, filtered_test).

Lemma decode_genes_loop :
  decode_genes mapping chromosome train test
  = foldM decode_step (seq 0 (length chromosome)) ([], []).
Proof. reflexivity. Qed.

Lemma decode_step_selected a b i :
  chromosome !! i = Some 1%Z ->
  forall a' b',
    decode_step (a, b) i = Ok (a', b') <->
    exists tr te, selected_row mapping train i = Some tr /\
                  selected_row mapping test i = Some te /\
                  a' = a ++ [tr] /\ b' = b ++ [te].
Proof.
  intros Hbit a' b'. unfold decode_step, selected_row, getitem, dict_get.
  rewrite Hbit. cbn. rewrite decide_True by reflexivity.
  destruct (dict_lookup mapping i) as [j|]; cbn.
  - destruct (train !! j) as [tr|]; cbn.
    + destruct (test !! j) as [te|]; cbn.
      * split.
        -- intros H. inversion H. now exists tr, te.
        -- intros (tr' & te' & Htr & Hte & -> & ->). congruence.
      * split; [discriminate | intros (? & ? & _ & ? & _); discriminate].
    + split; [discriminate | intros (? & ? & ? & _); discriminate].
  - split; [discriminate | intros (? & ? & ? & _); discriminate].
Qed.

Lemma decode_step_skipped a b i bit :
  chromosome !! i = Some bit -> bit <> 1%Z -> decode_step (a, b) i = Ok (a, b).
Proof.
  intros Hbit Hne. unfold decode_step, getitem. rewrite Hbit. cbn.
  now rewrite decide_False.
Qed.

Lemma decode_loop_selected (idx : list nat) : forall a b a' b',
  (forall i, i ∈ idx -> i < length chromosome) ->
  foldM decode_step idx (a, b) = Ok (a', b') <->
  exists ra rb,
    a' = a ++ ra /\ b' = b ++ rb /\
    Forall2 (fun i r => selected_row mapping train i = Some r)
            (filter (fun i => chromosome !! i = Some 1%Z) idx) ra /\
    Forall2 (fun i r => selected_row mapping test i = Some r)
            (filter (fun i => chromosome !! i = Some 1%Z) idx) rb.
Proof.
  induction idx as [|i idx IH]; intros a b a' b' Hidx.
  - split.
    + intros H. inversion H. exists [], []. rewrite !app_nil_r. repeat split; constructor.
    + intros (ra & rb & -> & -> & Hra & Hrb).
      apply Forall2_nil_inv_l in Hra, Hrb. subst. now rewrite !app_nil_r.
  - assert (forall k, k ∈ idx -> k < length chromosome) as Hidx'
      by (intros k Hk; apply Hidx; now right).
    destruct (lookup_lt_is_Some_2 chromosome i) as [bit Hbit];
      [apply Hidx; now left|].
    rewrite foldM_cons, filter_cons.
    destruct (decide (bit = 1%Z)) as [->|Hne].
    + rewrite decide_True by exact Hbit. split.
      * intros H. destruct (decode_step (a, b) i) as [[a1 b1]|] eqn:Hstep;
          [|discriminate].
        apply decode_step_selected in Hstep as (tr & te & Htr & Hte & -> & ->);
          [|exact Hbit].
        cbn in H. apply IH in H as (ra & rb & -> & -> & Hra & Hrb); [|exact Hidx'].
        exists (tr :: ra), (te :: rb). rewrite <- !app_assoc.
        repeat split; now constructor.
      * intros (ra & rb & -> & -> & Hra & Hrb).
        apply Forall2_cons_inv_l in Hra as (tr & ra' & Htr & Hra' & ->).
        apply Forall2_cons_inv_l in Hrb as (te & rb' & Hte & Hrb' & ->).
        assert (decode_step (a, b) i = Ok (a ++ [tr], b ++ [te])) as ->.
        { apply decode_step_selected; [exact Hbit|]. now exists tr, te. }
        cbn. apply IH; [exact Hidx'|].
        exists ra', rb'. rewrite <- !app_assoc. now repeat split.
    + rewrite decide_False by congruence.
      rewrite (decode_step_skipped a b i bit Hbit Hne). cbn.
      now apply IH.
Qed.

(** X5.  [decode_genes] returns exactly when every position of the
    chromosome that holds a 1 is a key of the mapping and maps to a row
    index that exists in both matrices; what it returns are those rows of
    the train and of the test matrix, one per 1-bit, in the order of the
    positions. *)
Theorem decode_genes_selected_rows (filtered_train filtered_test : list (list Z)) :
  decode_genes mapping chromosome train test = Ok (filtered_train, filtered_test)
  <->
  Forall2 (fun i r => selected_row mapping train i = Some r)
          (set_bits chromosome) filtered_train /\
  Forall2 (fun i r => selected_row mapping test i = Some r)
          (set_bits chromosome) filtered_test.
Proof.
  rewrite decode_genes_loop, decode_loop_selected.
  - unfold set_bits. split.
    + intros (ra & rb & -> & -> & Hra & Hrb). now split.
    + intros [Hra Hrb]. now exists filtered_train, filtered_test.
  - intros i Hi. apply elem_of_seq in Hi. lia.
Qed.

Lemma filter_none {A} (P : A -> Prop) `{forall a, Decision (P a)} (l : list A) :
  (forall a, a ∈ l -> ~ P a) -> filter P l = [].
Proof.
  induction l as [|a l IH]; intros Hl.
  - reflexivity.
  - rewrite filter_cons, decide_False by (apply Hl; now left).
    apply IH. intros b Hb. apply Hl. now right.
Qed.

Lemma filter_all {A} (P : A -> Prop) `{forall a, Decision (P a)} (l : list A) :
  (forall a, a ∈ l -> P a) -> filter P l = l.
Proof.
  induction l as [|a l IH]; intros Hl.
  - reflexivity.
  - rewrite filter_cons, decide_True by (apply Hl; now left).
    f_equal. apply IH. intros b Hb. apply Hl. now right.
Qed.

(** X6.  A chromosome without a 1 decodes to the empty pair, whatever the
    mapping and the matrices are: nothing is looked up. *)
Theorem decode_genes_no_feature :
  (forall bit, bit ∈ chromosome -> bit <> 1%Z) ->
  decode_genes mapping chromosome train test = Ok ([], []).
Proof.
  intros Hzero. rewrite decode_genes_loop. apply decode_loop_selected.
  - intros i Hi. apply elem_of_seq in Hi. lia.
  - exists [], []. rewrite filter_none.
    + repeat split; constructor.
    + intros i _ Hbit. apply (Hzero 1%Z); [|reflexivity].
      now apply list_elem_of_lookup_2 with i.
Qed.
End Decode.

Lemma decode_genes_no_feature_witness :
  decode_genes [] [0; 2; 0]%Z [[5]]%Z [] = Ok ([], []).
Proof.
  apply decode_genes_no_feature. intros bit Hbit.
  repeat (apply elem_of_cons in Hbit as [->|Hbit]; [discriminate|]).
  inversion Hbit.
Defined.

(** ** The index map *)

Lemma dict_of_zip_lookup (idx : list nat) : forall (a n : nat) (d : dict nat nat) (i : nat),
  dict_lookup (fold_left (fun d kv => dict_set d kv.1 kv.2) (zip (seq a n) idx) d) i
  = if decide (a <= i < a + n /\ i - a < length idx) then idx !! (i - a)
    else dict_lookup d i.
Proof.
  induction idx as [|x idx IH]; intros a n d i.
  - rewrite zip_with_nil_r. simpl. rewrite decide_False by (simpl; lia). reflexivity.
  - destruct n as [|n].
    + simpl. rewrite decide_False by lia. reflexivity.
    + simpl. rewrite IH, dict_lookup_set.
      destruct (decide (a = i)) as [->|Hne].
      * rewrite decide_False by lia. rewrite decide_True by lia.
        now rewrite Nat.sub_diag.
      * destruct (decide (S a <= i < S a + n /\ i - S a < length idx)) as [Hin|Hout].
        -- rewrite decide_True by lia.
           replace (i - a) with (S (i - S a)) by lia. reflexivity.
        -- rewrite decide_False by lia. reflexivity.
Qed.

(** [dict(zip(range(n), idx))[i]] is [idx[i]] below [n]. *)
Lemma index_map_lookup (n : nat) (idx : list nat) (i : nat) :
  i < n ->
  dict_lookup (dict_of_pairs (zip (seq 0 n) idx)) i = idx !! i.
Proof.
  intros Hi. unfold dict_of_pairs. rewrite dict_of_zip_lookup.
  rewrite Nat.sub_0_r. destruct (decide (0 <= i < 0 + n /\ i < length idx)) as [_|Hout].
  - reflexivity.
  - simpl. symmetry. apply lookup_ge_None. lia.
Qed.

(** X7.  Round trip through the index map: for the mapping
    [dict(zip(range(n), idx))] built by the orchestrator, the all-ones
    chromosome of length [n] decodes to the rows [idx[0], ..., idx[n-1]] of
    the train and of the test matrix, in that order. *)
Theorem decode_all_ones (n : nat) (idx : list nat) (train test : list (list Z))
    (filtered_train filtered_test : list (list Z)) :
  n <= length idx ->
  Forall2 (fun j r => train !! j = Some r) (take n idx) filtered_train ->
  Forall2 (fun j r => test !! j = Some r) (take n idx) filtered_test ->
  decode_genes (dict_of_pairs (zip (seq 0 n) idx)) (replicate n 1%Z) train test
  = Ok (filtered_train, filtered_test).
Proof.
  intros Hn Htrain Htest. rewrite decode_genes_loop. apply decode_loop_selected.
  - intros i Hi. apply elem_of_seq in Hi. lia.
  - exists filtered_train, filtered_test. split; [reflexivity|]. split; [reflexivity|].
    rewrite length_replicate, filter_all.
    + assert (forall (m rows : list (list Z)),
                Forall2 (fun j r => m !! j = Some r) (take n idx) rows ->
                Forall2 (fun i r => selected_row (dict_of_pairs (zip (seq 0 n) idx)) m i
                                    = Some r) (seq 0 n) rows) as Hrows.
      { intros m rows Hm. apply Forall2_same_length_lookup.
        split.
        - rewrite length_seq, <- (Forall2_length _ _ _ Hm), length_take. lia.
        - intros i k r Hk Hr. apply lookup_seq in Hk as [-> Hi]. simpl.
          unfold selected_row. rewrite index_map_lookup by exact Hi.
          destruct (lookup_lt_is_Some_2 (take n idx) i) as [j Hj];
            [rewrite length_take; lia|].
          pose proof (Forall2_lookup_lr _ _ _ _ _ _ Hm Hj Hr) as Hrow.
          rewrite lookup_take_lt in Hj by exact Hi. rewrite Hj. exact Hrow. }
      split; now apply Hrows.
    + intros i Hi. apply elem_of_seq in Hi.
      apply lookup_replicate. split; [reflexivity | lia].
Qed.

Lemma decode_all_ones_witness :
  decode_genes (dict_of_pairs (zip (seq 0 2) [1; 0; 2])) (replicate 2 1%Z)
               [[5; 6]; [7; 8]; [9; 9]]%Z [[1]; [2]; [3]]%Z
  = Ok ([[7; 8]; [5; 6]]%Z, [[2]; [1]]%Z).
Proof.
  apply decode_all_ones.
  - simpl. lia.
  - repeat constructor.
  - repeat constructor.
Defined.

(** ** The scored population *)

Lemma insert_by_sorted_by {A} (le : A -> A -> Prop) (before : A -> A -> bool) :
  (forall a b, before a b = true -> le a b) ->
  (forall a b, before b a = false -> le a b) ->
  (forall a b c, le a b -> le b c -> le a c) ->
  forall a l, StronglySorted le l -> StronglySorted le (insert_by before a l).
Proof.
  intros Htrue Hfalse Htrans a l. induction 1 as [|b l Hsorted IH Hb]; simpl.
  - repeat constructor.
  - destruct (before b a) eqn:Hba.
    + constructor; [exact IH|].
      rewrite (insert_by_Permutation before a l).
      constructor; [now apply Htrue | exact Hb].
    + constructor; [now constructor|].
      constructor; [now apply Hfalse|].
      eapply Forall_impl; [exact Hb|].
      intros c Hc. apply Htrans with b; [now apply Hfalse | exact Hc].
Qed.

Lemma sort_by_fitness_sorted (l : list (nat * R)) :
  StronglySorted (fun p q => q.2 <= p.2)%R (sort_by (fun p q => Rltb q.2 p.2) l).
Proof.
  induction l as [|a l IH]; simpl.
  - constructor.
  - apply insert_by_sorted_by; [| | |exact IH].
    + intros p q. unfold Rltb. destruct (Rlt_dec q.2 p.2); [lra | discriminate].
    + intros p q. unfold Rltb. destruct (Rlt_dec p.2 q.2); [discriminate | lra].
    + intros p q r. lra.
Qed.

Section Scored.
Variable clf_model : Type.
Variable clf_fit : list (list Z) -> list Z -> result clf_model.
Variable clf_predict : clf_model -> list (list Z) -> result (list Z).
Variable f1_score : list Z -> list Z -> result R.
Variable mapping : dict nat nat.
Variable population : list nat.
Variables train test : list (list Z).
Variables train_cl test_cl : list Z.

Local Abbreviation score_round :=
  (score_individual clf_model clf_fit clf_predict f1_score
                    mapping population train train_cl test test_cl).
Local Abbreviation scored_population :=
  (population_fitness clf_model clf_fit clf_predict f1_score
                      mapping population train train_cl test test_cl).

Lemma score_individual_frame code_fitness f_sum i s code_fitness' f_sum' s' :
  score_round (code_fitness, f_sum) i s = (Ok (code_fitness', f_sum'), s') ->
  heap s' = heap s /\ draws s' = draws s /\ fits s <= fits s' /\
  exists computed, code_fitness' = code_fitness ++ computed /\
                   Forall (fun p => p.1 ∈ population /\ p.1 < length (heap s))
                          computed.
Proof.
  unfold score_individual, mbind, M_bind, lift, deref, fit_and_score.
  intros H.
  destruct (getitem population i) as [individual|] eqn:Hind; [|discriminate].
  destruct (getitem (heap s) individual) as [chromosome|] eqn:Hchrom;
    [|discriminate].
  destruct (decode_genes mapping chromosome train test)
    as [[filtered_train filtered_test]|]; [|discriminate].
  destruct (decide (length filtered_train = 0)).
  - inversion H; subst. repeat split; [lia|]. exists []. now rewrite app_nil_r.
  - unfold mret, M_ret in H.
    match type of H with
    | (match ?r with _ => _ end) = _ => destruct r as [f|]
    end; [|discriminate].
    inversion H; subst. repeat split; [simpl; lia|]. exists [(individual, f)].
    split; [reflexivity|]. repeat constructor; simpl.
    + unfold getitem in Hind.
      destruct (population !! i) as [r|] eqn:Hr; [|discriminate].
      inversion Hind; subst. now apply list_elem_of_lookup_2 with i.
    + unfold getitem in Hchrom.
      destruct (heap s !! individual) as [c|] eqn:Hc; [|discriminate].
      now apply lookup_lt_Some with c.
Qed.

Lemma score_loop_frame idx : forall code_fitness f_sum s code_fitness' f_sum' s',
  foldM score_round idx (code_fitness, f_sum) s = (Ok (code_fitness', f_sum'), s') ->
  heap s' = heap s /\ draws s' = draws s /\ fits s <= fits s' /\
  exists computed, code_fitness' = code_fitness ++ computed /\
                   Forall (fun p => p.1 ∈ population /\ p.1 < length (heap s))
                          computed.
Proof.
  induction idx as [|i idx IH]; intros code_fitness f_sum s code_fitness' f_sum' s' H.
  - inversion H; subst. repeat split; [lia|]. exists []. now rewrite app_nil_r.
  - rewrite foldM_cons in H. unfold mbind at 1, M_bind in H.
    destruct (score_round (code_fitness, f_sum) i s)
      as [[[code_fitness1 f_sum1]|e] s1] eqn:Hstep; [|discriminate].
    apply score_individual_frame in Hstep as (Hh1 & Hd1 & Hf1 & c1 & -> & Hc1).
    apply IH in H as (Hh2 & Hd2 & Hf2 & c2 & -> & Hc2).
    split; [congruence|]. split; [congruence|]. split; [lia|].
    exists (c1 ++ c2). rewrite app_assoc. split; [reflexivity|].
    apply Forall_app. split; [exact Hc1|]. now rewrite <- Hh1.
Qed.


(** X8.  When [population_fitness] returns, it has left every chromosome
    and the random source untouched; the scored list is not empty, is
    sorted by descending fitness, and holds only individuals of the
    population; the reported maximum is the fitness of the first entry and
    no entry has a larger fitness. *)
Theorem population_fitness_scored (s s' : state)
    (code_fitness : list (nat * R)) (f_max f_avg : R) :
  scored_population s = (Ok (code_fitness, f_max, f_avg), s') ->
  heap s' = heap s /\ draws s' = draws s /\
  (exists best rest, code_fitness = (best, f_max) :: rest) /\
  StronglySorted (fun p q => q.2 <= p.2)%R code_fitness /\
  (forall individual f, (individual, f) ∈ code_fitness ->
     individual ∈ population /\ (f <= f_max)%R).
Proof.
  unfold population_fitness, mbind at 1, M_bind. intros H.
  match type of H with
  | (match ?loop with _ => _ end) = _ =>
      destruct loop as [[[scored f_sum]|e] s1] eqn:Hloop; [|discriminate]
  end.
  apply score_loop_frame in Hloop
    as (Hheap & Hdraws & _ & computed & Hscored & Hmembers).
  simpl in Hscored. subst scored.
  pose proof (sort_by_fitness_sorted computed) as Hsorted.
  pose proof (sort_by_Permutation (fun p q : nat * R => Rltb q.2 p.2) computed)
    as Hperm.
  unfold mbind, M_bind, lift, getitem in H.
  destruct (sort_by (fun p q => Rltb q.2 p.2) computed) as [|[best f] rest] eqn:Hsort;
    [discriminate|].
  simpl in H. destruct (decide (length population = 0)); [discriminate|].
  inversion H; subst; clear H.
  split; [exact Hheap|]. split; [exact Hdraws|].
  split; [now exists best, rest|]. split; [exact Hsorted|].
  intros individual f' Hin. split.
  - rewrite Forall_forall in Hmembers.
    apply (Hmembers (individual, f')). now rewrite <- Hperm.
  - apply StronglySorted_inv in Hsorted as [_ Hrest].
    apply elem_of_cons in Hin as [Heq|Hin].
    + inversion Heq. simpl. lra.
    + rewrite Forall_forall in Hrest. apply (Hrest _ Hin).
Qed.
End Scored.

Lemma population_fitness_scored_witness :
  heap {| heap := [[1]; [0]]%Z; draws := 0; fits := 1 |} = heap one_and_zero /\
  draws {| heap := [[1]; [0]]%Z; draws := 0; fits := 1 |} = draws one_and_zero /\
  (exists best rest, [(0, 1%R)] = (best, 1%R) :: rest) /\
  StronglySorted (fun p q => q.2 <= p.2)%R [(0, 1%R)] /\
  (forall individual f, (individual, f) ∈ [(0, 1%R)] ->
     individual ∈ [0; 1] /\ (f <= 1)%R).
Proof.
  exact (population_fitness_scored unit always_fit predict_nothing score_one
           [(0, 0)] [0; 1] [[5]]%Z [[7]]%Z [0]%Z [1]%Z
           one_and_zero _ _ 1%R _ population_fitness_one_and_zero).
Defined.

(** ** Crossover, mutation and breeding *)



Section Breeding.
Variable random_source : nat -> Z.

Local Abbreviation draw := (randint random_source).
Local Abbreviation cross := (crossover random_source).
Local Abbreviation mutate := (mutation random_source).
Local Abbreviation breed := (cross_and_mutate random_source).


Lemma crossover_run (x y : nat) (s : state) (xs ys : list Z) :
  heap s !! x = Some xs ->
  heap s !! y = Some ys ->
  length ys = length xs ->
  2 <= length xs ->
  exists p : nat,
    1 <= p < length xs /\
    cross x y s
    = (Ok (length (heap s), S (length (heap s))),
       {| heap := heap s ++ [take p xs ++ drop p ys; take p ys ++ drop p xs];
          draws := S (draws s); fits := fits s |}) /\
    length (take p xs ++ drop p ys) = length xs /\
    length (take p ys ++ drop p xs) = length xs.
Proof.
  intros Hx Hy Hlen Hxs.
  set (p := Z.to_nat (1 + random_source (draws s) mod (Z.of_nat (length xs) - 1 - 1 + 1))).
  pose proof (Z.mod_pos_bound (random_source (draws s))
                              (Z.of_nat (length xs) - 1 - 1 + 1)) as Hmod.
  assert (1 <= p < length xs) as Hp by (subst p; lia).
  exists p. split; [exact Hp|]. split.
  - unfold crossover, mbind, M_bind, deref, randint, alloc, getitem.
    rewrite Hx. cbn [heap draws fits].
    destruct (decide (Z.of_nat (length xs) - 1 < 1)%Z); [lia|].
    cbn [heap draws fits]. rewrite Hy. fold p.
    rewrite <- Hlen, firstn_all. unfold mret, M_ret. cbn [heap draws fits].
    rewrite length_app. simpl length. rewrite <- app_assoc. simpl.
    do 3 f_equal. lia.
  - rewrite !length_app, !length_take, !length_drop. lia.
Qed.


(** X9.  On two parents of the same length, at least 2, [crossover] does
    not raise; it draws one split point [p] with [1 <= p < len], leaves all
    existing chromosomes as they are, and creates two new ones of the same
    length: the first [p] bits of one parent followed by the rest of the
    other, and the other way round. *)
Theorem crossover_children (x y : nat) (s : state) (xs ys : list Z) :
  heap s !! x = Some xs ->
  heap s !! y = Some ys ->
  length ys = length xs ->
  2 <= length xs ->
  exists p : nat,
    1 <= p < length xs /\
    cross x y s
    = (Ok (length (heap s), S (length (heap s))),
       {| heap := heap s ++ [take p xs ++ drop p ys; take p ys ++ drop p xs];
          draws := S (draws s); fits := fits s |}) /\
    length (take p xs ++ drop p ys) = length xs /\
    length (take p ys ++ drop p xs) = length xs.
Proof. apply crossover_run. Qed.

(** X10.  On a first parent with fewer than 2 bits [crossover] raises
    [ValueError] (the range of split points is empty); no number is drawn
    and no chromosome is created. *)
Theorem crossover_too_short (x y : nat) (s : state) (xs : list Z) :
  heap s !! x = Some xs ->
  length xs < 2 ->
  cross x y s = (Raise ValueError, s).
Proof.
  intros Hx Hlen. unfold crossover, mbind, M_bind, deref, randint, getitem.
  rewrite Hx. rewrite decide_True by lia. reflexivity.
Qed.


(** X11.  On a non-empty chromosome of 0s and 1s, [mutation] does not
    raise: it replaces the bit at one position by its complement, in the
    list object it was given, whose address it returns; the chromosome
    stays a list of 0s and 1s of the same length, and no other chromosome
    changes. *)
Theorem mutation_flips_one_bit (x : nat) (s : state) (xs : list Z) :
  heap s !! x = Some xs ->
  xs <> [] ->
  Forall (fun bit => bit = 0%Z \/ bit = 1%Z) xs ->
  exists (p : nat) (bit : Z),
    xs !! p = Some bit /\
    mutate x s
    = (Ok x, {| heap := <[x := <[p := (1 - bit)%Z]> xs]> (heap s);
                draws := S (draws s); fits := fits s |}) /\
    Forall (fun bit => bit = 0%Z \/ bit = 1%Z) (<[p := (1 - bit)%Z]> xs) /\
    length (<[p := (1 - bit)%Z]> xs) = length xs.
Proof.
  intros Hx Hne Hbits.
  destruct (mutation_in_place random_source x s xs Hx Hne)
    as (p & bit & _ & Hbit & Hrun).
  assert (bit = 0%Z \/ bit = 1%Z) as Hb.
  { rewrite Forall_forall in Hbits. apply Hbits.
    now apply list_elem_of_lookup_2 with p. }
  assert (((bit - 1) mod 2)%Z = (1 - bit)%Z) as Hflip
    by (destruct Hb as [->| ->]; reflexivity).
  exists p, bit. split; [exact Hbit|]. rewrite <- Hflip. split; [exact Hrun|].
  split; [|apply length_insert].
  apply Forall_insert; [exact Hbits|].
  rewrite Hflip. destruct Hb as [->| ->]; [now right | now left].
Qed.

End Breeding.

Lemma crossover_children_witness :
  exists p : nat,
    1 <= p < length [0; 1; 1]%Z /\
    crossover (fun _ => 1%Z) 0 1
              {| heap := [[0; 1; 1]; [1; 0; 0]]%Z; draws := 0; fits := 0 |}
    = (Ok (2, 3),
       {| heap := [[0; 1; 1]; [1; 0; 0]]%Z
                  ++ [take p [0; 1; 1] ++ drop p [1; 0; 0];
                      take p [1; 0; 0] ++ drop p [0; 1; 1]]%Z;
          draws := 1; fits := 0 |}) /\
    length (take p [0; 1; 1] ++ drop p [1; 0; 0])%Z = length [0; 1; 1]%Z /\
    length (take p [1; 0; 0] ++ drop p [0; 1; 1])%Z = length [0; 1; 1]%Z.
Proof.
  apply (crossover_children (fun _ => 1%Z) 0 1
           {| heap := [[0; 1; 1]; [1; 0; 0]]%Z; draws := 0; fits := 0 |}
           [0; 1; 1]%Z [1; 0; 0]%Z).
  - reflexivity.
  - reflexivity.
  - reflexivity.
  - simpl. lia.
Defined.

Lemma crossover_too_short_witness :
  crossover (fun _ => 0%Z) 0 1 one_and_zero = (Raise ValueError, one_and_zero).
Proof.
  apply (crossover_too_short (fun _ => 0%Z) 0 1 one_and_zero [1]%Z).
  - reflexivity.
  - simpl. lia.
Defined.

Lemma mutation_flips_one_bit_witness :
  exists (p : nat) (bit : Z),
    [0; 1]%Z !! p = Some bit /\
    mutation (fun _ => 1%Z) 0 single_parent
    = (Ok 0, {| heap := <[0 := <[p := (1 - bit)%Z]> [0; 1]%Z]> (heap single_parent);
                draws := S (draws single_parent); fits := fits single_parent |}) /\
    Forall (fun bit => bit = 0%Z \/ bit = 1%Z) (<[p := (1 - bit)%Z]> [0; 1]%Z) /\
    length (<[p := (1 - bit)%Z]> [0; 1]%Z) = length [0; 1]%Z.
Proof.
  apply (mutation_flips_one_bit (fun _ => 1%Z) 0 single_parent [0; 1]%Z).
  - reflexivity.
  - discriminate.
  - constructor; [now left|]. constructor; [now right|]. constructor.
Defined.

Section NewGeneration.
Variable random_source : nat -> Z.

Local Abbreviation draw := (randint random_source).
Local Abbreviation cross := (crossover random_source).
Local Abbreviation mutate := (mutation random_source).
Local Abbreviation breed := (cross_and_mutate random_source).





End NewGeneration.


(** Two chromosomes, [[0; 1]] at address 0 and [[1; 1]] at address 1. *)
Definition two_parents : state :=
  {| heap := [[0; 1]; [1; 1]]%Z; draws := 0; fits := 0 |}.



(** ** The MIM stage on an instance that has the attribute *)




(** ** The initial population *)

(** X15.  For [_mim_size >= 1], [_initial_population] does not raise: it
    creates [_pop_size] new chromosomes (none for a negative size), leaves
    the existing ones as they are and draws one random number per
    chromosome; every new chromosome holds a 1 and has [_mim_size] or
    [_mim_size + 1] bits. *)
Theorem initial_population_masks (random_source : nat -> Z) (self : MIMAGA)
    (s : state) :
  (1 <= _mim_size self)%Z ->
  exists codes : list (list Z),
    _initial_population random_source self s
    = (Ok (seq (length (heap s)) (length codes)),
       {| heap := heap s ++ codes; draws := draws s + length codes;
          fits := fits s |}) /\
    length codes = Z.to_nat (_pop_size self) /\
    Forall (fun code =>
              1%Z ∈ code /\
              (length code = Z.to_nat (_mim_size self) \/
               length code = S (Z.to_nat (_mim_size self)))) codes.
Proof.
  intros Hm.
  destruct (initial_population_shape random_source self Hm s)
    as (codes & Hrun & Hlen & Hmasks).
  exists codes. split; [exact Hrun|]. split; [exact Hlen|]. exact Hmasks.
Qed.

Lemma initial_population_masks_witness :
  exists codes : list (list Z),
    _initial_population (fun n => Z.of_nat n) example_mimaga single_parent
    = (Ok (seq (length (heap single_parent)) (length codes)),
       {| heap := heap single_parent ++ codes;
          draws := draws single_parent + length codes;
          fits := fits single_parent |}) /\
    length codes = Z.to_nat (_pop_size example_mimaga) /\
    Forall (fun code =>
              1%Z ∈ code /\
              (length code = Z.to_nat (_mim_size example_mimaga) \/
               length code = S (Z.to_nat (_mim_size example_mimaga)))) codes.
Proof.
  apply (initial_population_masks (fun n => Z.of_nat n) example_mimaga single_parent).
  simpl. lia.
Defined.

(** X16.  For [_mim_size <= 0] and [_pop_size >= 1], [_initial_population]
    raises [ValueError] (a negative shift count) before it draws a number
    or creates a chromosome. *)
Theorem initial_population_no_feature (random_source : nat -> Z) (self : MIMAGA)
    (s : state) :
  (_mim_size self <= 0)%Z ->
  (1 <= _pop_size self)%Z ->
  _initial_population random_source self s = (Raise ValueError, s).
Proof.
  intros Hm Hpop. unfold _initial_population.
  destruct (Z.to_nat (_pop_size self)) as [|n] eqn:Hn; [lia|].
  simpl seq. rewrite foldM_cons.
  unfold mbind, M_bind, lift, py_lshift.
  rewrite decide_True by lia. reflexivity.
Qed.

Lemma initial_population_no_feature_witness :
  _initial_population (fun _ => 0%Z)
    (__init__ 0 4 5 (8 / 10) (6 / 10) (3 / 10) (9 / 10) (1 / 1000)) empty_heap
  = (Raise ValueError, empty_heap).
Proof.
  apply initial_population_no_feature; simpl; lia.
Defined.

(** ** Range of the adaptive probabilities *)

Lemma scaled_ratio_bounds (k a b : R) :
  (0 <= k <= 1)%R -> (0 <= a <= b)%R -> (0 < b)%R ->
  (0 <= k * (a / b) <= 1)%R.
Proof.
  intros Hk Ha Hb.
  assert (0 < / b)%R as Hinv by now apply Rinv_0_lt_compat.
  assert (b * / b = 1)%R as Hone by (field; lra).
  assert (0 <= a * / b)%R as Hlow by (apply Rmult_le_pos; lra).
  assert (a * / b <= b * / b)%R as Hhigh by (apply Rmult_le_compat_r; lra).
  unfold Rdiv. split; nra.
Qed.

(** X17.  When the four constants lie in [[0, 1]] and the reference fitness
    does not exceed the maximum fitness, both adaptive probabilities lie in
    [[0, 1]]. *)
Theorem adaptive_probabilities_in_range (self : MIMAGA) (f_max f_avg f_par : R) :
  (0 <= _k1 self <= 1)%R -> (0 <= _k2 self <= 1)%R ->
  (0 <= _k3 self <= 1)%R -> (0 <= _k4 self <= 1)%R ->
  (f_par <= f_max)%R ->
  (0 <= _crossover_probability self f_max f_avg f_par <= 1)%R /\
  (0 <= _mutation_probability self f_max f_avg f_par <= 1)%R.
Proof.
  intros Hk1 Hk2 Hk3 Hk4 Hpar.
  unfold _crossover_probability, _mutation_probability.
  destruct (Rge_dec f_par f_avg) as [Hge|Hlt]; [|now split].
  destruct (Req_dec_T f_max f_avg) as [Heq|Hne]; [split; lra|].
  split; apply scaled_ratio_bounds; try assumption; lra.
Qed.

Lemma adaptive_probabilities_in_range_witness :
  (0 <= _crossover_probability example_mimaga 1 (1 / 2) (3 / 4) <= 1)%R /\
  (0 <= _mutation_probability example_mimaga 1 (1 / 2) (3 / 4) <= 1)%R.
Proof.
  apply adaptive_probabilities_in_range; simpl; lra.
Defined.

(** X18.  The probabilities are not clamped: when the reference fitness
    exceeds the maximum fitness, which in turn exceeds the average, the
    crossover "probability" is negative for [k1 > 0] and the mutation
    "probability" is negative for [k3 > 0]. *)
Theorem adaptive_probabilities_negative (self : MIMAGA) (f_max f_avg f_par : R) :
  (f_max < f_par)%R ->
  (f_avg < f_max)%R ->
  ((0 < _k1 self)%R -> (_crossover_probability self f_max f_avg f_par < 0)%R) /\
  ((0 < _k3 self)%R -> (_mutation_probability self f_max f_avg f_par < 0)%R).
Proof.
  intros Hpar Havg.
  unfold _crossover_probability, _mutation_probability.
  destruct (Rge_dec f_par f_avg) as [_|Hlt]; [|lra].
  destruct (Req_dec_T f_max f_avg) as [Heq|_]; [lra|].
  assert (0 < / (f_max - f_avg))%R as Hinv by (apply Rinv_0_lt_compat; lra).
  assert ((f_max - f_par) * / (f_max - f_avg) < 0)%R as Hratio by nra.
  unfold Rdiv. split; intros Hk; nra.
Qed.

Lemma adaptive_probabilities_negative_witness :
  (_crossover_probability example_mimaga (1 / 2) (1 / 4) 1 < 0)%R /\
  (_mutation_probability example_mimaga (1 / 2) (1 / 4) 1 < 0)%R.
Proof.
  destruct (adaptive_probabilities_negative example_mimaga (1 / 2) (1 / 4) 1)
    as [Hc Hm]; [lra | lra |].
  split; [apply Hc | apply Hm]; simpl; lra.
Defined.

(** ** The orchestrator on an instance built by the constructor *)

(** X19.  On an instance that comes from the constructor, [mimaga_filter]
    never returns a result, whatever the data, the split and the
    classifier: it raises in the split or in the MIM stage, before any
    chromosome is created, any number is drawn from [random] or any
    classifier is fitted. *)
Theorem mimaga_filter_after_init (random_source : nat -> Z) (clf_model : Type)
    (clf_fit : list (list Z) -> list Z -> result clf_model)
    (clf_predict : clf_model -> list (list Z) -> result (list Z))
    (f1_score : list Z -> list Z -> result R)
    (train_test_split :
       list (list Z) -> list Z ->
       result (list (list Z) * list (list Z) * list Z * list Z))
    (mim_size pop_size max_iter : Z) (f_target k1 k2 k3 k4 : R)
    (genes : list (list Z)) (classes : list Z) (s : state) :
  exists e : exn,
    mimaga_filter random_source clf_model clf_fit clf_predict f1_score
                  train_test_split
                  (__init__ mim_size pop_size max_iter f_target k1 k2 k3 k4)
                  genes classes s
    = (Raise e, s).
Proof. apply mimaga_filter_never_returns. Qed.

(** ** The best individual returned by the search *)

Section BestIndividual.
Variable random_source : nat -> Z.
Variable clf_model : Type.
Variable clf_fit : list (list Z) -> list Z -> result clf_model.
Variable clf_predict : clf_model -> list (list Z) -> result (list Z).
Variable f1_score : list Z -> list Z -> result R.

Local Abbreviation search_loop :=
  (aga_loop random_source clf_model clf_fit clf_predict f1_score).
Local Abbreviation search :=
  (_aga_filter random_source clf_model clf_fit clf_predict f1_score).


End BestIndividual.



(** ** Conditional entropy is not negative *)

Lemma neg_plogp_nonneg (probs : list R) :
  Forall (fun q => 0 <= q <= 1)%R probs -> (0 <= neg_plogp probs)%R.
Proof.
  intros Hprobs. unfold neg_plogp.
  assert (Forall (fun q => 0 < q <= 1)%R (List.filter (fun p => Rltb 0 p) probs))
    as Hpositive.
  { apply Forall_forall. intros q Hq.
    apply list_elem_of_In, filter_In in Hq as [Hq Hpos].
    rewrite Forall_forall in Hprobs. apply list_elem_of_In in Hq.
    specialize (Hprobs q Hq). unfold Rltb in Hpos.
    destruct (Rlt_dec 0 q); [lra | discriminate]. }
  destruct (py_sum_plogp _ Hpositive) as [Hle _]. lra.
Qed.

Lemma foldM_nonneg {A} (f : R -> A -> result R) (l : list A) :
  (forall acc a acc', a ∈ l -> (0 <= acc)%R -> f acc a = Ok acc' -> (0 <= acc')%R) ->
  forall acc h, (0 <= acc)%R -> foldM f l acc = Ok h -> (0 <= h)%R.
Proof.
  induction l as [|a l IH]; intros Hf acc h Hacc H.
  - inversion H; subst. exact Hacc.
  - rewrite foldM_cons in H. destruct (f acc a) as [acc1|] eqn:Hstep; [|discriminate].
    cbn in H. apply (IH (fun acc2 b acc3 Hb => Hf acc2 b acc3 (list_elem_of_further _ _ _ Hb))
                       acc1 h); [|exact H].
    apply (Hf acc a acc1); [now left | exact Hacc | exact Hstep].
Qed.

Lemma mapM_Ok_inv {A B} (f : A -> result B) (l : list A) (bs : list B) :
  mapM f l = Ok bs -> Forall2 (fun a b => f a = Ok b) l bs.
Proof.
  revert bs. induction l as [|a l IH]; intros bs H.
  - inversion H. constructor.
  - cbn in H. destruct (f a) as [b|] eqn:Hb; [|discriminate]. cbn in H.
    destruct (mapM f l) as [bs'|]; [|discriminate]. cbn in H.
    inversion H; subst. constructor; [exact Hb | now apply IH].
Qed.

Lemma dict_set_Forall {K V} `{EqDecision K} (P : K * V -> Prop)
    (d : dict K V) (k : K) (v : V) :
  Forall P d -> P (k, v) -> Forall P (dict_set d k v).
Proof.
  intros Hd Hkv. induction Hd as [|[k0 v0] d Hk0 Hd IH]; simpl.
  - now repeat constructor.
  - destruct (decide (k0 = k)) as [->|Hne]; constructor; assumption.
Qed.

Lemma dict_comp_Forall {K V} `{EqDecision K} (P : K * V -> Prop)
    (f : K -> V) (l : list K) :
  (forall k, P (k, f k)) -> Forall P (dict_comp f l).
Proof.
  intros HP. unfold dict_comp.
  assert (forall d, Forall P d ->
                    Forall P (fold_left (fun d k => dict_set d k (f k)) l d)) as H.
  { induction l as [|a l IH]; intros d Hd; simpl; [exact Hd|].
    apply IH. now apply dict_set_Forall. }
  apply H. constructor.
Qed.

Lemma dict_lookup_In {K V} `{EqDecision K} (d : dict K V) (k : K) (v : V) :
  dict_lookup d k = Some v -> (k, v) ∈ d.
Proof.
  induction d as [|[k0 v0] d IH]; simpl; [discriminate|].
  destruct (decide (k0 = k)) as [->|Hne].
  - intros H. inversion H. now left.
  - intros H. right. now apply IH.
Qed.

Section ConditionalEntropyBound.
Variables x y : list Z.

(** No count of an inner counter is negative or exceeds the count of its
    [y] value. *)
Definition counts_bounded (st : dict Z Z * dict Z (dict Z Z)) : Prop :=
  forall k c inner,
    dict_lookup st.1 k = Some c ->
    dict_lookup st.2 k = Some inner ->
    Forall (fun entry => 0 <= entry.2 <= c)%Z inner.

Lemma count_pair_bounded (n : nat) (st st' : dict Z Z * dict Z (dict Z Z)) :
  counts_bounded st -> count_pair x y st n = Ok st' -> counts_bounded st'.
Proof.
  destruct st as [y_counter x_by_y_counter]. intros Hbound H.
  unfold count_pair, count_up, getitem, dict_get in H.
  destruct (x !! n) as [xi|]; [|discriminate].
  destruct (y !! n) as [yi|]; [|discriminate]. cbn in H.
  destruct (dict_lookup y_counter yi) as [c|] eqn:Hc; [|discriminate]. cbn in H.
  destruct (dict_lookup x_by_y_counter yi) as [inner|] eqn:Hinner; [|discriminate].
  cbn in H.
  destruct (dict_lookup inner xi) as [cx|] eqn:Hcx; [|discriminate]. cbn in H.
  inversion H; subst; clear H.
  intros k c' inner'. simpl. rewrite !dict_lookup_set.
  destruct (decide (yi = k)) as [<-|Hne].
  - intros Hc' Hinner'. inversion Hc'; inversion Hinner'; subst.
    pose proof (Hbound yi c inner Hc Hinner) as Hentries. simpl in Hentries.
    apply dict_set_Forall.
    + eapply Forall_impl; [exact Hentries|]. intros entry Hentry. simpl in *. lia.
    + rewrite Forall_forall in Hentries.
      pose proof (Hentries _ (dict_lookup_In _ _ _ Hcx)) as Hx. simpl in *. lia.
  - intros Hc' Hinner'. exact (Hbound k c' inner' Hc' Hinner').
Qed.

Lemma count_pair_loop_bounded (n : nat) (st : dict Z Z * dict Z (dict Z Z)) :
  foldM (count_pair x y) (seq 0 n)
        (dict_comp (fun _ => 0%Z) y,
         dict_comp (fun _ => dict_comp (fun _ => 0%Z) x) y)
  = Ok st ->
  counts_bounded st.
Proof.
  revert st. induction n as [|n IH]; intros st H.
  - inversion H; subst. intros k c inner. simpl.
    rewrite !dict_comp_lookup.
    destruct (decide (k ∈ y)); [|discriminate].
    intros Hc Hinner. inversion Hc; inversion Hinner; subst.
    apply dict_comp_Forall. intros xi. simpl. lia.
  - rewrite seq_S, foldM_app in H.
    destruct (foldM (count_pair x y) (seq 0 n) _) as [st1|] eqn:Hloop; [|discriminate].
    change (foldM (count_pair x y) [0 + n] st1 = Ok st) in H.
    rewrite foldM_cons in H. simpl plus in H.
    destruct (count_pair x y st1 n) as [st2|] eqn:Hstep; [|discriminate].
    change (Ok st2 = Ok st) in H. inversion H; subst.
    apply (count_pair_bounded n st1); [now apply IH | exact Hstep].
Qed.

(** X21.  On two sequences of the same length [conditional_entropy] does
    not raise and its result is not negative. *)
Theorem conditional_entropy_nonnegative :
  length x = length y ->
  exists h : R, conditional_entropy x y = Ok h /\ (0 <= h)%R.
Proof.
  intros Hlen.
  destruct (conditional_entropy_total x y Hlen) as [h Hh].
  exists h. split; [exact Hh|].
  unfold conditional_entropy in Hh.
  destruct (count_pair_loop x y (length x)) as ([y_counter x_by_y_counter] & Hloop & Hok);
    [lia | lia |].
  pose proof (count_pair_loop_bounded _ _ Hloop) as Hbound.
  rewrite Hloop in Hh. cbn in Hh.
  apply (foldM_nonneg _ _) with (acc := 0%R) in Hh; [exact Hh | | lra].
  intros acc yi acc' _ Hacc Hstep.
  unfold dict_get in Hstep.
  destruct (dict_lookup x_by_y_counter yi) as [inner|] eqn:Hinner; [|discriminate].
  cbn in Hstep.
  match type of Hstep with
  | mbind _ ?probs = _ => destruct probs as [x_by_yi|] eqn:Hprobs; [|discriminate]
  end.
  cbn in Hstep.
  destruct (dict_lookup y_counter yi) as [c|] eqn:Hc; [|discriminate].
  cbn in Hstep. unfold int_truediv in Hstep.
  destruct (decide (Z.of_nat (length y) = 0%Z)); [discriminate|].
  cbn in Hstep. inversion Hstep; subst; clear Hstep.
  assert (0 <= IZR c / IZR (Z.of_nat (length y)))%R as Hweight.
  { destruct Hok as (_ & _ & Hnonneg & _). specialize (Hnonneg yi c Hc).
    apply IZR_le in Hnonneg.
    assert (0 < IZR (Z.of_nat (length y)))%R by (apply IZR_lt; lia).
    apply Rmult_le_pos; [lra|]. left. now apply Rinv_0_lt_compat. }
  assert (0 <= neg_plogp x_by_yi)%R as Hentropy.
  { apply neg_plogp_nonneg.
    apply mapM_Ok_inv in Hprobs.
    pose proof (Hbound yi c inner Hc Hinner) as Hentries. simpl in Hentries.
    apply Forall_forall. intros q Hq.
    apply list_elem_of_lookup in Hq as [i Hq].
    destruct (Forall2_lookup_r _ _ _ _ _ Hprobs Hq) as (cnt & Hcnt & Hdiv).
    cbn in Hdiv. unfold int_truediv in Hdiv.
    destruct (decide (c = 0%Z)); [discriminate|]. inversion Hdiv; subst q.
    apply list_elem_of_lookup_2 in Hcnt.
    apply list_elem_of_In, in_map_iff in Hcnt as ([xi cnt'] & Heq & Hin).
    simpl in Heq. subst cnt'.
    rewrite Forall_forall in Hentries.
    apply list_elem_of_In in Hin. specialize (Hentries _ Hin). simpl in Hentries.
    assert (0 < c)%Z as Hcpos by lia.
    destruct Hentries as [Hlow Hhigh].
    apply IZR_le in Hlow, Hhigh. apply IZR_lt in Hcpos.
    assert (0 < / IZR c)%R as Hinv by now apply Rinv_0_lt_compat.
    assert (IZR c * / IZR c = 1)%R as Hone by (field; lra).
    unfold Rdiv. split; nra. }
  nra.
Qed.
End ConditionalEntropyBound.

Lemma conditional_entropy_nonnegative_witness :
  exists h : R,
    conditional_entropy [0; 1; 1]%Z [1; 0; 0]%Z = Ok h /\ (0 <= h)%R.
Proof. apply conditional_entropy_nonnegative. reflexivity. Defined.

(** ** What crossover and the binary expansion preserve *)

(** The number of 1s of a chromosome of 0s and 1s: the sum of its bits. *)
Definition bit_total (l : list Z) : Z := foldr Z.add 0%Z l.

Lemma bit_total_app (l1 l2 : list Z) :
  bit_total (l1 ++ l2) = (bit_total l1 + bit_total l2)%Z.
Proof.
  unfold bit_total. induction l1 as [|a l1 IH]; simpl; [reflexivity | lia].
Qed.

Lemma bit_total_take_drop (p : nat) (l : list Z) :
  (bit_total (take p l) + bit_total (drop p l))%Z = bit_total l.
Proof. now rewrite <- bit_total_app, take_drop. Qed.

(** X22.  One-point crossover moves bits between the parents without
    creating or losing any: on two parents of the same length, at least 2,
    the two children together hold as many 1s as the two parents. *)
Theorem crossover_keeps_bit_total (random_source : nat -> Z) (x y : nat)
    (s : state) (xs ys : list Z) :
  heap s !! x = Some xs ->
  heap s !! y = Some ys ->
  length ys = length xs ->
  2 <= length xs ->
  exists (child1 child2 : nat) (s' : state) (bits1 bits2 : list Z),
    crossover random_source x y s = (Ok (child1, child2), s') /\
    heap s' !! child1 = Some bits1 /\
    heap s' !! child2 = Some bits2 /\
    (bit_total bits1 + bit_total bits2 = bit_total xs + bit_total ys)%Z.
Proof.
  intros Hx Hy Hlen Hxs.
  destruct (crossover_run random_source x y s xs ys Hx Hy Hlen Hxs)
    as (p & _ & Hrun & _).
  eexists _, _, _, _, _. split; [exact Hrun|]. cbn [heap].
  split; [|split].
  - rewrite lookup_app_r by lia. rewrite Nat.sub_diag. reflexivity.
  - rewrite lookup_app_r by lia.
    replace (S (length (heap s)) - length (heap s)) with 1 by lia. reflexivity.
  - rewrite !bit_total_app.
    pose proof (bit_total_take_drop p xs). pose proof (bit_total_take_drop p ys). lia.
Qed.

Lemma crossover_keeps_bit_total_witness :
  exists (child1 child2 : nat) (s' : state) (bits1 bits2 : list Z),
    crossover (fun _ => 1%Z) 0 1 two_parents = (Ok (child1, child2), s') /\
    heap s' !! child1 = Some bits1 /\
    heap s' !! child2 = Some bits2 /\
    (bit_total bits1 + bit_total bits2
     = bit_total [0; 1] + bit_total [1; 1])%Z.
Proof.
  apply (crossover_keeps_bit_total (fun _ => 1%Z) 0 1 two_parents [0; 1]%Z [1; 1]%Z).
  - reflexivity.
  - reflexivity.
  - reflexivity.
  - simpl. lia.
Defined.

(** The number that a list of binary digits denotes, most significant
    digit first. *)
Definition value_of_bits (l : list Z) : Z :=
  fold_left (fun acc bit => 2 * acc + bit)%Z l 0%Z.

Lemma value_of_bits_positive (p : positive) : value_of_bits (bits p) = Zpos p.
Proof.
  unfold value_of_bits.
  induction p as [p IH|p IH|]; simpl bits; [| |reflexivity];
    rewrite fold_left_app, IH; simpl; lia.
Qed.

Lemma value_of_leading_zeros (k : nat) (l : list Z) :
  value_of_bits (replicate k 0%Z ++ l) = value_of_bits l.
Proof.
  unfold value_of_bits. rewrite fold_left_app. f_equal.
  induction k as [|k IH]; [reflexivity | simpl; exact IH].
Qed.

(** X23.  Round trip of the chromosome encoding of [_initial_population]:
    the bit list built from a drawn number [n >= 1] for [m] features,
    [list(map(int, bin(n)[2:].zfill(m)))], is a binary numeral of [n]
    (most significant bit first), whatever [m] is. *)
Theorem code_of_round_trip (p : positive) (m : Z) :
  exists code : list Z,
    code_of (Zpos p) m = Ok code /\ value_of_bits code = Zpos p.
Proof.
  eexists. split; [apply code_of_pos|].
  rewrite value_of_leading_zeros. apply value_of_bits_positive.
Qed.
